(** * MongoDB MCP server: the tool dispatch layer and the insights memo

    A shallow embedding of [src/mongodb/src/mcp_server_mongodb/server.py]:
    the insight ledger and its memo ([MongoDatabase._synthesize_memo]), the
    database gateway ([MongoDatabase._execute_query]), the resource reader
    ([handle_read_resource]) and the tool router ([handle_call_tool]).

    Python strings are modelled by [string] (their UTF-8 bytes); every
    pattern the program searches for or inserts is ASCII, so concatenation,
    [join] and [replace] on bytes agree with the same operations on code
    points.  The document store (pymongo), the BSON/JSON codec and the
    protocol session are collaborators of the program and appear as
    interfaces ([Store], [Transport], [PyBuiltins]). *)

From Stdlib Require Import PrimFloat Ascii String.
From stdpp Require Import base strings gmap list pretty.

Open Scope string_scope.
Open Scope list_scope.
Open Scope nat_scope.
Set Warnings "-register-all".

(** ** Values *)

(** The data the program handles: JSON values (tool arguments, documents,
    results) and the store's native identifiers. *)
Inductive value : Type :=
| VNone
| VBool (b : bool)
| VInt (n : Z)
| VFloat (x : float)
| VStr (s : string)
| VList (xs : list value)
| VDict (kvs : list (string * value))
| VObjectId (oid : N).

Definition is_VStr (v : value) : bool :=
  match v with VStr _ => true | _ => false end.

(** [isinstance(v, list)] *)
Definition is_list (v : value) : bool :=
  match v with VList _ => true | _ => false end.

(** [type(v).__name__], as it shows in the message of an [AttributeError]. *)
Definition type_name (v : value) : string :=
  match v with
  | VNone => "NoneType"
  | VBool _ => "bool"
  | VInt _ => "int"
  | VFloat _ => "float"
  | VStr _ => "str"
  | VList _ => "list"
  | VDict _ => "dict"
  | VObjectId _ => "ObjectId"
  end.

(** ** Exceptions *)

(** Instances of Python's [Exception], the class [handle_call_tool]
    catches.  [External] stands for any exception raised inside a
    collaborator (a pymongo error, a closed session, ...); it carries the
    text [str(e)] gives.  What is not an [Exception] (the cancellation of the
    task, the exit of the interpreter) is a [BaseExc], further down. *)
Inductive exn : Type :=
| ValueError (msg : string)
| KeyError (key : string)
| AttributeError (msg : string)
| External (msg : string).

(** ** Strings *)

Definition LF : string := String "010"%char EmptyString.

Definition hex_digit (n : N) : ascii :=
  match n with
  | 0 => "0" | 1 => "1" | 2 => "2" | 3 => "3" | 4 => "4" | 5 => "5"
  | 6 => "6" | 7 => "7" | 8 => "8" | 9 => "9" | 10 => "a" | 11 => "b"
  | 12 => "c" | 13 => "d" | 14 => "e" | _ => "f"
  end%N%char.

Fixpoint hex_go (digits : nat) (n : N) (acc : string) : string :=
  match digits with
  | O => acc
  | S d => hex_go d (n / 16)%N (String (hex_digit (n mod 16)%N) acc)
  end.

(** [str(ObjectId)]: the 12 bytes as 24 hexadecimal digits. *)
Definition oid_hex (oid : N) : string := hex_go 24 oid "".

Definition contains_char (c : ascii) (s : string) : bool :=
  existsb (Ascii.eqb c) (list_ascii_of_string s).

(** One character of [repr(s)] for a [str] quoted with [quote]. *)
Definition repr_char (quote c : ascii) : string :=
  let n := N_of_ascii c in
  if Ascii.eqb c "\" then "\\"
  else if Ascii.eqb c quote then String "\" (String c "")
  else if Ascii.eqb c "010" then "\n"
  else if Ascii.eqb c "013" then "\r"
  else if Ascii.eqb c "009" then "\t"
  else if (n <? 32)%N || (n =? 127)%N
       then "\x" +:+ String (hex_digit (n / 16)%N) (String (hex_digit (n mod 16)%N) "")
  else String c "".

(** [repr(s)] for a [str]: single quotes unless the text has a single quote
    and no double quote; backslash, the quote and control characters are
    escaped.  Bytes above 127 are kept, as Python keeps printable
    non-ASCII characters; the few it escapes are kept as well, so the
    function is exact on ASCII text, which is all the program gives it. *)
Definition repr_str (s : string) : string :=
  let quote : ascii :=
    if contains_char "'" s && negb (contains_char "034" s) then "034"%char else "'"%char in
  String quote
    (String.concat "" (map (repr_char quote) (list_ascii_of_string s))
     +:+ String quote "").

(** [s.replace(old, new)] for a non-empty [old], scanning left to right;
    [skip] counts the characters of a match still to be dropped. *)
Fixpoint replace_from (old new : string) (skip : nat) (s : string) : string :=
  match s with
  | EmptyString => EmptyString
  | String c s' =>
      match skip with
      | S k => replace_from old new k s'
      | O =>
          if String.prefix old s
          then new +:+ replace_from old new (String.length old - 1) s'
          else String c (replace_from old new 0 s')
      end
  end.

(** [s.replace(old, new)]; an empty [old] matches before every character
    and at the end. *)
Definition str_replace (old new s : string) : string :=
  match old with
  | EmptyString =>
      new +:+ String.concat "" (map (fun c => String c new) (list_ascii_of_string s))
  | _ => replace_from old new 0 s
  end.

(** ** Builtins that are not modelled *)

(** [repr] of numbers, containers and identifiers is Python's own business
    (float printing in particular); the program only passes the text on. *)
Class PyBuiltins := {
  repr_data : value -> string
}.

Section Builtins.
Context {builtins : PyBuiltins}.

Definition repr (v : value) : string :=
  match v with
  | VStr s => repr_str s
  | _ => repr_data v
  end.

(** [str(v)], which is also what an f-string field [{v}] renders. *)
Definition str (v : value) : string :=
  match v with
  | VStr s => s
  | VObjectId oid => oid_hex oid
  | _ => repr v
  end.
End Builtins.

(** [str(e)]: the message, except for a [KeyError], which shows the [repr]
    of the missing key. *)
Definition exn_str (e : exn) : string :=
  match e with
  | ValueError msg => msg
  | KeyError key => repr_str key
  | AttributeError msg => msg
  | External msg => msg
  end.

(** [d.get(key, default)] *)
Definition dict_get (d : value) (key : string) (default : value) : exn + value :=
  match d with
  | VDict kvs =>
      match find (fun kv => String.eqb (fst kv) key) kvs with
      | Some kv => inr (snd kv)
      | None => inr default
      end
  | _ => inl (AttributeError ("'" +:+ type_name d +:+ "' object has no attribute 'get'"))
  end.

(** ** The protocol's data *)

(** What the program observes of a [pydantic.AnyUrl]: [uri.scheme] and
    [str(uri)]. *)
Record AnyUrl : Type := {
  scheme : string;
  url_text : string
}.

(** [AnyUrl("memo://insights")] *)
Definition memo_insights : AnyUrl :=
  {| scheme := "memo"; url_text := "memo://insights" |}.

(** [str(uri).replace("memo://", "")] *)
Definition resource_path (uri : AnyUrl) : string :=
  str_replace "memo://" "" (url_text uri).

(** The content items a tool call may answer with. *)
Inductive Content : Type :=
| TextContent (text : string)
| ImageContent (data mimeType : string)
| EmbeddedResource (resource : AnyUrl).

Definition is_text (c : Content) : bool :=
  match c with TextContent _ => true | _ => false end.

(** ** Collaborators *)

(** Results of pymongo's write operations. *)
Record InsertOneResult : Type := { inserted_id : value }.
Record InsertManyResult : Type := { inserted_ids : list value }.
Record UpdateResult : Type := { matched_count : nat; modified_count : nat }.
Record DeleteResult : Type := { deleted_count : nat }.

(** The part of pymongo and of [bson.json_util] the gateway could call, over
    a store state [S].  Every operation may raise and may change the store. *)
Class Store (S : Type) := {
  Collection : Type;
  db_getitem : S -> value -> exn + Collection;
  db_list_collection_names : S -> (exn + list string) * S;
  db_create_collection : value -> S -> (exn + unit) * S;
  coll_find : Collection -> value -> S -> (exn + list value) * S;
  coll_aggregate : Collection -> value -> S -> (exn + list value) * S;
  coll_insert_one : Collection -> value -> S -> (exn + InsertOneResult) * S;
  coll_insert_many : Collection -> list value -> S -> (exn + InsertManyResult) * S;
  coll_update_one : Collection -> value -> value -> S -> (exn + UpdateResult) * S;
  coll_update_many : Collection -> value -> value -> S -> (exn + UpdateResult) * S;
  coll_delete_one : Collection -> value -> S -> (exn + DeleteResult) * S;
  coll_delete_many : Collection -> value -> S -> (exn + DeleteResult) * S;
  json_roundtrip : list value -> exn + list value
}.

(** The session of the protocol server, over a session state [T]. *)
Class Transport (T : Type) := {
  send_resource_updated : AnyUrl -> T -> (exn + unit) * T
}.

(** ** State and control *)

(** A step of a tool call on the ledger or on the session, as the journal
    keeps it: an insight appended, a memo computed, the session asked to
    send the resource-updated notification for an address. *)
Inductive Event : Type :=
| Appended (insight : value)
| Synthesized (memo : string)
| Notify (uri : AnyUrl).

(** The [MongoDatabase] object ([db], [insights]) and the session the
    handlers close over.  [journal] is not in the program: it lists the
    steps of the tool calls in the order they ran, so that order can be
    stated. *)
Record World (S T : Type) : Type := {
  db : S;
  insights : list value;
  session : T;
  journal : list Event
}.
Arguments db {S T} _.
Arguments insights {S T} _.
Arguments session {S T} _.
Arguments journal {S T} _.

Definition set_db {S T} (s : S) (w : World S T) : World S T :=
  {| db := s; insights := insights w; session := session w; journal := journal w |}.

Definition set_insights {S T} (l : list value) (w : World S T) : World S T :=
  {| db := db w; insights := l; session := session w; journal := journal w |}.

Definition set_session {S T} (t : T) (w : World S T) : World S T :=
  {| db := db w; insights := insights w; session := t; journal := journal w |}.

Definition log {S T} (ev : Event) (w : World S T) : World S T :=
  {| db := db w; insights := insights w; session := session w; journal := journal w ++ [ev] |}.

(** A computation that may raise and that keeps the state it reached when it
    does: Python undoes nothing on an exception. *)
Definition M (W A : Type) : Type := W -> (exn + A) * W.

#[export] Instance M_ret {W} : MRet (M W) := fun A (x : A) w => (inr x, w).

#[export] Instance M_bind {W} : MBind (M W) := fun A B (f : A -> M W B) (m : M W A) w =>
  match m w with
  | (inr x, w') => f x w'
  | (inl e, w') => (inl e, w')
  end.

Definition raise {W A} (e : exn) : M W A := fun w => (inl e, w).

Definition of_result {W A} (r : exn + A) : M W A := fun w => (r, w).

(** [try: body except Exception as e: return handler(e)] *)
Definition try_except {W A} (body : M W A) (handler : exn -> A) : W -> A * W :=
  fun w =>
    match body w with
    | (inr x, w') => (x, w')
    | (inl e, w') => (handler e, w')
    end.

(** [try: body except Exception as e: logger.error(...); raise] *)
Definition try_reraise {W A} (body : M W A) : M W A :=
  fun w =>
    match body w with
    | (inr x, w') => (inr x, w')
    | (inl e, w') => (inl e, w')
    end.

(** [arguments[key]] *)
Definition getitem (arguments : gmap string value) (key : string) : exn + value :=
  match arguments !! key with
  | Some v => inr v
  | None => inl (KeyError key)
  end.

(** [not arguments] for [arguments : dict | None] *)
Definition not_ (arguments : option (gmap string value)) : bool :=
  match arguments with
  | None => true
  | Some d => bool_decide (d = ∅)
  end.

(** [key not in arguments], for a dict *)
Definition not_in (key : string) (arguments : gmap string value) : bool :=
  match arguments !! key with
  | Some _ => false
  | None => true
  end.

(** ** The program *)

Section Server.
Context {S T : Type} {store : Store S} {transport : Transport T} {builtins : PyBuiltins}.

Local Abbreviation W := (World S T).

(** A call into the store, on [self.db]. *)
Definition store_call {A} (op : S -> (exn + A) * S) : M W A :=
  fun w => let '(r, s') := op (db w) in (r, set_db s' w).

(** [self.insights.append(insight)] *)
Definition insights_append (insight : value) : M W unit :=
  fun w => (inr tt, log (Appended insight) (set_insights (insights w ++ [insight]) w)).

(** [await server.request_context.session.send_resource_updated(uri)] *)
Definition session_send_resource_updated (uri : AnyUrl) : M W unit :=
  fun w =>
    let '(r, t') := send_resource_updated uri (session w) in
    (r, log (Notify uri) (set_session t' w)).

(** [MongoDatabase._synthesize_memo], as a function of [self.insights]. *)
Definition _synthesize_memo (insights : list value) : string :=
  match insights with
  | [] => "No business insights have been discovered yet."
  | _ =>
      let bullets := String.concat LF (map (fun insight => "- " +:+ str insight) insights) in
      let memo := "📊 Business Intelligence Memo 📊" +:+ LF +:+ LF in
      let memo := memo +:+ ("Key Insights Discovered:" +:+ LF +:+ LF) in
      let memo := memo +:+ bullets in
      if (1 <? length insights)%nat
      then
        let memo := memo +:+ (LF +:+ "Summary:" +:+ LF) in
        memo +:+ ("Analysis has revealed " +:+ pretty (length insights)
                  +:+ " key business insights that suggest opportunities for strategic optimization and growth.")
      else memo
  end.

(** [self._synthesize_memo()], called from a tool. *)
Definition synthesize_memo_call : M W string :=
  fun w =>
    let memo := _synthesize_memo (insights w) in
    (inr memo, log (Synthesized memo) w).

(** [MongoDatabase._execute_query] *)
Definition _execute_query (query : value) (operation : string) (collection_name : value)
  : M W (list value) :=
  try_reraise (
    collection ← (fun w => (db_getitem (db w) collection_name, w));
    if String.eqb operation "find" then
      results ← store_call (coll_find collection query);
      of_result (json_roundtrip results)
    else if String.eqb operation "aggregate" then
      pipeline ← of_result (dict_get query "pipeline" (VList []));
      results ← store_call (coll_aggregate collection pipeline);
      of_result (json_roundtrip results)
    else if String.eqb operation "insert" then
      match query with
      | VList documents =>
          result ← store_call (coll_insert_many collection documents);
          mret [VDict [("inserted_ids",
                        VList (map (fun id => VStr (str id)) (inserted_ids result)))]]
      | _ =>
          result ← store_call (coll_insert_one collection query);
          mret [VDict [("inserted_id", VStr (str (inserted_id result)))]]
      end
    else if String.eqb operation "update" then
      filter_query ← of_result (dict_get query "filter" (VDict []));
      update_query ← of_result (dict_get query "update" (VDict []));
      result ← store_call (coll_update_many collection filter_query update_query);
      mret [VDict [("modified_count", VInt (Z.of_nat (modified_count result)))]]
    else if String.eqb operation "delete" then
      result ← store_call (coll_delete_many collection query);
      mret [VDict [("deleted_count", VInt (Z.of_nat (deleted_count result)))]]
    else if String.eqb operation "create_collection" then
      store_call (db_create_collection collection_name);;
      mret [VDict [("message",
                    VStr ("Collection " +:+ str collection_name +:+ " created successfully"))]]
    else
      raise (ValueError ("Unsupported operation: " +:+ operation))).

(** [handle_read_resource]; it has no [try]: a fault is the handler's
    outcome, nothing turns it into text. *)
Definition handle_read_resource (uri : AnyUrl) (w : W) : exn + string :=
  if negb (String.eqb (scheme uri) "memo") then
    inl (ValueError ("Unsupported URI scheme: " +:+ scheme uri))
  else
    let path := resource_path uri in
    if String.eqb path "" || negb (String.eqb path "insights") then
      inl (ValueError ("Unknown resource path: " +:+ path))
    else
      inr (_synthesize_memo (insights w)).

(** [return [types.TextContent(type="text", text=str(results))]] *)
Definition text_of_results (results : list value) : list Content :=
  [TextContent (str (VList results))].

(** The body of the [try] of [handle_call_tool]. *)
Definition handle_call_tool_body (name : string) (arguments : option (gmap string value))
  : M W (list Content) :=
  if String.eqb name "list-collections" then
    collections ← store_call db_list_collection_names;
    mret [TextContent (str (VList (map VStr collections)))]
  else if String.eqb name "append-insight" then
    match arguments with
    | Some args =>
        if not_ arguments || not_in "insight" args then
          raise (ValueError "Missing insight argument")
        else
          insight ← of_result (getitem args "insight");
          insights_append insight;;
          _ ← synthesize_memo_call;
          session_send_resource_updated memo_insights;;
          mret [TextContent "Insight added to memo"]
    | None => raise (ValueError "Missing insight argument")
    end
  else
    match arguments with
    | Some args =>
        if not_ arguments then raise (ValueError "Missing arguments")
        else if String.eqb name "find" then
          query ← of_result (getitem args "query");
          collection ← of_result (getitem args "collection");
          results ← _execute_query query "find" collection;
          mret (text_of_results results)
        else if String.eqb name "aggregate" then
          pipeline ← of_result (getitem args "pipeline");
          collection ← of_result (getitem args "collection");
          results ← _execute_query (VDict [("pipeline", pipeline)]) "aggregate" collection;
          mret (text_of_results results)
        else if String.eqb name "insert" then
          documents ← of_result (getitem args "documents");
          collection ← of_result (getitem args "collection");
          results ← _execute_query documents "insert" collection;
          mret (text_of_results results)
        else if String.eqb name "update" then
          filter ← of_result (getitem args "filter");
          update ← of_result (getitem args "update");
          collection ← of_result (getitem args "collection");
          results ← _execute_query (VDict [("filter", filter); ("update", update)])
                                   "update" collection;
          mret (text_of_results results)
        else if String.eqb name "delete" then
          filter ← of_result (getitem args "filter");
          collection ← of_result (getitem args "collection");
          results ← _execute_query filter "delete" collection;
          mret (text_of_results results)
        else if String.eqb name "create-collection" then
          collection ← of_result (getitem args "name");
          results ← _execute_query (VDict []) "create_collection" collection;
          mret (text_of_results results)
        else
          raise (ValueError ("Unknown tool: " +:+ name))
    | None => raise (ValueError "Missing arguments")
    end.

(** [handle_call_tool]: the body under [except Exception as e], which
    answers [Error: ] followed by [str(e)]. *)
Definition handle_call_tool (name : string) (arguments : option (gmap string value))
  : W -> list Content * W :=
  try_except (handle_call_tool_body name arguments)
             (fun e => [TextContent ("Error: " +:+ exn_str e)]).

End Server.

(** ** Reference collaborators

    An in-memory store, a recording session and a printer, on which the
    program can be run.  They follow pymongo on a small fragment: filters
    compare top-level fields for equality, updates are [$set], identifiers
    are drawn from a counter. *)
Module Reference.

Fixpoint value_eqb (a b : value) : bool :=
  match a, b with
  | VNone, VNone => true
  | VBool x, VBool y => Bool.eqb x y
  | VInt x, VInt y => (x =? y)%Z
  | VFloat x, VFloat y => PrimFloat.eqb x y
  | VStr x, VStr y => String.eqb x y
  | VList xs, VList ys =>
      (fix all2 (xs ys : list value) : bool :=
         match xs, ys with
         | [], [] => true
         | x :: xs', y :: ys' => value_eqb x y && all2 xs' ys'
         | _, _ => false
         end) xs ys
  | VDict xs, VDict ys =>
      (fix all2 (xs ys : list (string * value)) : bool :=
         match xs, ys with
         | [], [] => true
         | (k, x) :: xs', (k', y) :: ys' => String.eqb k k' && value_eqb x y && all2 xs' ys'
         | _, _ => false
         end) xs ys
  | VObjectId x, VObjectId y => (x =? y)%N
  | _, _ => false
  end.

Definition field (key : string) (fields : list (string * value)) : option value :=
  snd <$> find (fun kv => String.eqb (fst kv) key) fields.

Fixpoint set_field (key : string) (v : value) (fields : list (string * value))
  : list (string * value) :=
  match fields with
  | [] => [(key, v)]
  | (k, x) :: rest => if String.eqb k key then (k, v) :: rest else (k, x) :: set_field key v rest
  end.

(** Does the document satisfy the filter?  Every field of the filter must
    be in the document with an equal value. *)
Definition matches (filter doc : value) : bool :=
  match filter, doc with
  | VDict conds, VDict fields =>
      forallb (fun '(k, v) =>
                 match field k fields with
                 | Some x => value_eqb x v
                 | None => false
                 end) conds
  | _, _ => false
  end.

(** The document after [{"$set": sets}]. *)
Definition apply_set (sets : list (string * value)) (doc : value) : value :=
  match doc with
  | VDict fields => VDict (fold_left (fun fs '(k, v) => set_field k v fs) sets fields)
  | _ => doc
  end.

Record MemStore : Type := {
  next_oid : N;
  collections : list (string * list value)
}.

Definition docs_of (c : string) (s : MemStore) : list value :=
  default [] (snd <$> find (fun kv => String.eqb (fst kv) c) (collections s)).

Fixpoint put_docs (c : string) (docs : list value) (colls : list (string * list value))
  : list (string * list value) :=
  match colls with
  | [] => [(c, docs)]
  | (k, ds) :: rest => if String.eqb k c then (k, docs) :: rest else (k, ds) :: put_docs c docs rest
  end.

Definition with_docs (c : string) (docs : list value) (s : MemStore) : MemStore :=
  {| next_oid := next_oid s; collections := put_docs c docs (collections s) |}.

Definition mem_getitem (s : MemStore) (name : value) : exn + string :=
  match name with
  | VStr n => if String.eqb n "" then inl (External "collection names cannot be empty") else inr n
  | _ => inl (External "name must be an instance of str")
  end.

Definition mem_create_collection (name : value) (s : MemStore) : (exn + unit) * MemStore :=
  match mem_getitem s name with
  | inl e => (inl e, s)
  | inr n =>
      if existsb (fun kv => String.eqb (fst kv) n) (collections s)
      then (inl (External ("collection " +:+ n +:+ " already exists")), s)
      else (inr tt, {| next_oid := next_oid s; collections := collections s ++ [(n, [])] |})
  end.

Definition mem_find (c : string) (query : value) (s : MemStore) : (exn + list value) * MemStore :=
  match query with
  | VDict _ => (inr (List.filter (matches query) (docs_of c s)), s)
  | _ => (inl (External "filter must be an instance of dict"), s)
  end.

Definition mem_aggregate (c : string) (pipeline : value) (s : MemStore)
  : (exn + list value) * MemStore :=
  match pipeline with
  | VList [] => (inr (docs_of c s), s)
  | VList _ => (inl (External "unsupported pipeline stage"), s)
  | _ => (inl (External "pipeline must be a list"), s)
  end.

(** Insert one document, giving it a fresh identifier unless it brings its
    own [_id]. *)
Definition mem_insert_one (c : string) (doc : value) (s : MemStore)
  : (exn + InsertOneResult) * MemStore :=
  match doc with
  | VDict fields =>
      match field "_id" fields with
      | Some id => (inr {| inserted_id := id |}, with_docs c (docs_of c s ++ [doc]) s)
      | None =>
          let id := VObjectId (next_oid s) in
          (inr {| inserted_id := id |},
           {| next_oid := N.succ (next_oid s);
              collections := put_docs c (docs_of c s ++ [VDict (("_id", id) :: fields)])
                                      (collections s) |})
      end
  | _ => (inl (External "document must be an instance of dict"), s)
  end.

Fixpoint mem_insert_each (c : string) (docs : list value) (s : MemStore)
  : (exn + list value) * MemStore :=
  match docs with
  | [] => (inr [], s)
  | doc :: rest =>
      match mem_insert_one c doc s with
      | (inl e, s') => (inl e, s')
      | (inr r, s') =>
          match mem_insert_each c rest s' with
          | (inl e, s'') => (inl e, s'')
          | (inr ids, s'') => (inr (inserted_id r :: ids), s'')
          end
      end
  end.

Definition mem_insert_many (c : string) (docs : list value) (s : MemStore)
  : (exn + InsertManyResult) * MemStore :=
  match docs with
  | [] => (inl (External "documents must be a non-empty list"), s)
  | _ =>
      match mem_insert_each c docs s with
      | (inl e, s') => (inl e, s')
      | (inr ids, s') => (inr {| inserted_ids := ids |}, s')
      end
  end.

(** Update the matching documents, all of them or the first one only. *)
Fixpoint update_docs (many : bool) (filter : value) (sets : list (string * value))
  (docs : list value) : list value * UpdateResult :=
  match docs with
  | [] => ([], {| matched_count := 0; modified_count := 0 |})
  | doc :: rest =>
      if matches filter doc then
        let doc' := apply_set sets doc in
        let changed := if value_eqb doc doc' then 0 else 1 in
        let '(rest', r) :=
          if many then update_docs many filter sets rest
          else (rest, {| matched_count := 0; modified_count := 0 |}) in
        (doc' :: rest',
         {| matched_count := 1 + matched_count r; modified_count := changed + modified_count r |})
      else
        let '(rest', r) := update_docs many filter sets rest in
        (doc :: rest', r)
  end.

Definition mem_update (many : bool) (c : string) (filter update : value) (s : MemStore)
  : (exn + UpdateResult) * MemStore :=
  match filter, update with
  | VDict _, VDict [("$set", VDict sets)] =>
      let '(docs, r) := update_docs many filter sets (docs_of c s) in
      (inr r, with_docs c docs s)
  | VDict _, _ => (inl (External "unsupported update operator"), s)
  | _, _ => (inl (External "filter must be an instance of dict"), s)
  end.

(** Delete the matching documents, all of them or the first one only. *)
Fixpoint delete_docs (many : bool) (filter : value) (docs : list value) : list value * nat :=
  match docs with
  | [] => ([], 0)
  | doc :: rest =>
      if matches filter doc then
        if many then let '(rest', n) := delete_docs many filter rest in (rest', 1 + n)
        else (rest, 1)
      else
        let '(rest', n) := delete_docs many filter rest in (doc :: rest', n)
  end.

Definition mem_delete (many : bool) (c : string) (filter : value) (s : MemStore)
  : (exn + DeleteResult) * MemStore :=
  match filter with
  | VDict _ =>
      let '(docs, n) := delete_docs many filter (docs_of c s) in
      (inr {| deleted_count := n |}, with_docs c docs s)
  | _ => (inl (External "filter must be an instance of dict"), s)
  end.

(** [json.loads(json_util.dumps(v))]: an identifier becomes [{"$oid": hex}]. *)
Fixpoint to_json (v : value) : value :=
  match v with
  | VObjectId oid => VDict [("$oid", VStr (oid_hex oid))]
  | VList xs => VList (map to_json xs)
  | VDict kvs => VDict (map (fun kv => (fst kv, to_json (snd kv))) kvs)
  | _ => v
  end.

#[export] Instance mem_store : Store MemStore := {|
  Collection := string;
  db_getitem := mem_getitem;
  db_list_collection_names := fun s => (inr (map fst (collections s)), s);
  db_create_collection := mem_create_collection;
  coll_find := mem_find;
  coll_aggregate := mem_aggregate;
  coll_insert_one := mem_insert_one;
  coll_insert_many := mem_insert_many;
  coll_update_one := mem_update false;
  coll_update_many := mem_update true;
  coll_delete_one := mem_delete false;
  coll_delete_many := mem_delete true;
  json_roundtrip := fun results => inr (map to_json results)
|}.

(** A session that records what it is asked to send, until it is closed. *)
Record Session : Type := {
  closed : bool;
  outbox : list AnyUrl
}.

#[export] Instance session_transport : Transport Session := {|
  send_resource_updated := fun uri t =>
    if closed t then (inl (External "Connection closed"), t)
    else (inr tt, {| closed := false; outbox := outbox t ++ [uri] |})
|}.

(** A printer for values; a float, which it cannot print, shows as a
    placeholder. *)
Fixpoint print (v : value) : string :=
  match v with
  | VNone => "None"
  | VBool true => "True"
  | VBool false => "False"
  | VInt n => pretty n
  | VFloat _ => "<float>"
  | VStr s => repr_str s
  | VList xs => "[" +:+ String.concat ", " (map print xs) +:+ "]"
  | VDict kvs =>
      "{" +:+ String.concat ", " (map (fun kv => repr_str (fst kv) +:+ ": " +:+ print (snd kv)) kvs)
          +:+ "}"
  | VObjectId oid => "ObjectId('" +:+ oid_hex oid +:+ "')"
  end.

#[export] Instance printer : PyBuiltins := {| repr_data := print |}.

Definition empty_store : MemStore := {| next_oid := 0; collections := [] |}.

Definition start : World MemStore Session :=
  {| db := empty_store; insights := [];
     session := {| closed := false; outbox := [] |}; journal := [] |}.

(** The same world on a session that has been closed. *)
Definition hang_up (w : World MemStore Session) : World MemStore Session :=
  set_session {| closed := true; outbox := outbox (session w) |} w.

(** Worlds and arguments to run the program on. *)
Definition sales : gmap string value := {["insight" := VStr "Sales spike in Q4"]}.

Definition confirm : gmap string value := {["confirm" := VBool true]}.

Definition only_collection : gmap string value := {["collection" := VStr "users"]}.

(** A store with two collections, one of them with two widgets in stock. *)
Definition widget (n : Z) : value :=
  VDict [("_id", VInt n); ("product", VStr "Widget"); ("stock", VInt 7)].

Definition gadget : value :=
  VDict [("_id", VInt 3); ("product", VStr "Gadget"); ("stock", VInt 7)].

Definition shop : World MemStore Session :=
  set_db {| next_oid := 0;
            collections := [("inventory", [widget 1; gadget; widget 2]); ("orders", [])] |}
         start.

Definition order : value := VDict [("orderId", VStr "1"); ("total", VInt 10)].

Definition widgets : value := VDict [("product", VStr "Widget")].

Definition restock : value := VDict [("$set", VDict [("stock", VInt 9)])].

Definition restocked : MemStore :=
  {| next_oid := 0;
     collections :=
       [("inventory",
         [VDict [("_id", VInt 1); ("product", VStr "Widget"); ("stock", VInt 9)];
          gadget;
          VDict [("_id", VInt 2); ("product", VStr "Widget"); ("stock", VInt 9)]]);
        ("orders", [])] |}.

Definition cleared : MemStore :=
  {| next_oid := 0; collections := [("inventory", [gadget]); ("orders", [])] |}.

End Reference.

(** ** Vocabulary of the statements *)

(** The tools [handle_list_tools] announces, each with the keys its schema
    requires. *)
Record Tool : Type := {
  tool_name : string;
  tool_required : list string
}.

Definition handle_list_tools : list Tool :=
  [ {| tool_name := "find"; tool_required := ["collection"; "query"] |};
    {| tool_name := "aggregate"; tool_required := ["collection"; "pipeline"] |};
    {| tool_name := "insert"; tool_required := ["collection"; "documents"] |};
    {| tool_name := "update"; tool_required := ["collection"; "filter"; "update"] |};
    {| tool_name := "delete"; tool_required := ["collection"; "filter"] |};
    {| tool_name := "create-collection"; tool_required := ["name"] |};
    {| tool_name := "list-collections"; tool_required := [] |};
    {| tool_name := "append-insight"; tool_required := ["insight"] |} ].

Definition tool_names : list string := map tool_name handle_list_tools.

(** The six tools that go to the gateway. *)
Definition gateway_tools : list string :=
  ["find"; "aggregate"; "insert"; "update"; "delete"; "create-collection"].

(** The keys a gateway tool reads from its arguments, in the order
    [handle_call_tool] evaluates the lookups. *)
Definition lookup_order (name : string) : list string :=
  if String.eqb name "find" then ["query"; "collection"]
  else if String.eqb name "aggregate" then ["pipeline"; "collection"]
  else if String.eqb name "insert" then ["documents"; "collection"]
  else if String.eqb name "update" then ["filter"; "update"; "collection"]
  else if String.eqb name "delete" then ["filter"; "collection"]
  else if String.eqb name "create-collection" then ["name"]
  else [].

(** The keys the schema of a tool requires. *)
Definition required_fields (name : string) : list string :=
  default [] (tool_required <$> find (fun t => String.eqb (tool_name t) name) handle_list_tools).

(** The first key of [keys] the arguments lack. *)
Definition first_missing (keys : list string) (arguments : gmap string value) : option string :=
  find (fun key => not_in key arguments) keys.

(** The payload is absent or lacks the key [insight]. *)
Definition lacks_insight (arguments : option (gmap string value)) : Prop :=
  match arguments with
  | None => True
  | Some args => args !! "insight" = None
  end.

(** A computation that, when it returns, returns one textual item. *)
Definition answers_text {W} (m : M W (list Content)) : Prop :=
  ∀ w r w', m w = (inr r, w') → ∃ text, r = [TextContent text].

(** The memo, line by line, as the specification describes it. *)
Definition no_insights_sentence : string :=
  "No business insights have been discovered yet.".

Definition header_lines : list string :=
  ["📊 Business Intelligence Memo 📊"; ""; "Key Insights Discovered:"; ""].

Definition bullet {builtins : PyBuiltins} (insight : value) : string := "- " +:+ str insight.

Definition summary_sentence (n : nat) : string :=
  "Analysis has revealed " +:+ pretty n
  +:+ " key business insights that suggest opportunities for strategic optimization and growth.".

Definition summary_lines (n : nat) : list string :=
  if (1 <? n)%nat then ["Summary:"; summary_sentence n] else [].

Definition memo_lines {builtins : PyBuiltins} (insights : list value) : list string :=
  header_lines ++ map bullet insights ++ summary_lines (length insights).

(** [s.split(LF)]: the lines of a text. *)
Fixpoint split_lines (s : string) : list string :=
  match s with
  | EmptyString => [EmptyString]
  | String c s' =>
      if Ascii.eqb c "010" then EmptyString :: split_lines s'
      else
        match split_lines s' with
        | line :: lines => String c line :: lines
        | [] => [String c EmptyString]
        end
  end.

(** The text has no line break in it. *)
Definition one_line (s : string) : bool := negb (contains_char "010" s).


(** ** The rest of the server *)

(** What [handle_list_resources] announces of a resource. *)
Record Resource : Type := {
  resource_uri : AnyUrl;
  resource_name : string;
  resource_description : string;
  resource_mimeType : string
}.

(** [handle_list_resources] *)
Definition handle_list_resources : list Resource :=
  [ {| resource_uri := memo_insights;
       resource_name := "Business Insights Memo";
       resource_description := "A living document of discovered business insights";
       resource_mimeType := "text/plain" |} ].

(** The world [main] sets up: [MongoDatabase.__init__] connects the store
    and starts with [self.insights = []]. *)
Definition startup {S T : Type} (connected : S) (t : T) : World S T :=
  {| db := connected; insights := []; session := t; journal := [] |}.

(** A tool call as the server receives it: the name and the arguments. *)
Definition Call : Type := string * option (gmap string value).

Section Serving.
Context {S T : Type} {store : Store S} {transport : Transport T} {builtins : PyBuiltins}.

(** The server answers the calls one at a time, each on the world the one
    before left. *)
Fixpoint serve (calls : list Call) (w : World S T) : list (list Content) * World S T :=
  match calls with
  | [] => ([], w)
  | call :: rest =>
      let '(answer, w1) := handle_call_tool (fst call) (snd call) w in
      let '(answers, w2) := serve rest w1 in
      (answer :: answers, w2)
  end.

(** The answer of [handle_call_tool] to what the gateway returned or raised. *)
Definition answer_of (outcome : (exn + list value) * World S T) : list Content * World S T :=
  match outcome with
  | (inr results, w') => (text_of_results results, w')
  | (inl e, w') => ([TextContent ("Error: " +:+ exn_str e)], w')
  end.

(** The steps the journal shows for the insights appended to a ledger. *)
Fixpoint journal_of (ledger accepted : list value) : list Event :=
  match accepted with
  | [] => []
  | insight :: rest =>
      [Appended insight; Synthesized (_synthesize_memo (ledger ++ [insight]));
       Notify memo_insights]
      ++ journal_of (ledger ++ [insight]) rest
  end.

End Serving.

(** The insight a call brings, when it is an [append-insight] with the
    key. *)
Definition accepted_insight (call : Call) : option value :=
  if String.eqb (fst call) "append-insight" then
    args ← snd call; args !! "insight"
  else None.

Definition accepted_insights (calls : list Call) : list value :=
  omap accepted_insight calls.

(** The operations [_execute_query] knows. *)
Definition gateway_operations : list string :=
  ["find"; "aggregate"; "insert"; "update"; "delete"; "create_collection"].

(** What a gateway tool asks of the gateway: the query, the operation and
    the collection name, once every lookup has succeeded. *)
Definition gateway_request (name : string) (args : gmap string value)
  : option (value * string * value) :=
  if String.eqb name "find" then
    query ← args !! "query"; collection ← args !! "collection";
    Some (query, "find", collection)
  else if String.eqb name "aggregate" then
    pipeline ← args !! "pipeline"; collection ← args !! "collection";
    Some (VDict [("pipeline", pipeline)], "aggregate", collection)
  else if String.eqb name "insert" then
    documents ← args !! "documents"; collection ← args !! "collection";
    Some (documents, "insert", collection)
  else if String.eqb name "update" then
    filter ← args !! "filter"; update ← args !! "update"; collection ← args !! "collection";
    Some (VDict [("filter", filter); ("update", update)], "update", collection)
  else if String.eqb name "delete" then
    filter ← args !! "filter"; collection ← args !! "collection";
    Some (filter, "delete", collection)
  else if String.eqb name "create-collection" then
    collection ← args !! "name";
    Some (VDict [], "create_collection", collection)
  else None.

(** The second world has the ledger, the session and the journal of the
    first. *)
Definition same_ledger {S T : Type} (w w' : World S T) : Prop :=
  insights w' = insights w ∧ session w' = session w ∧ journal w' = journal w.

Definition keeps_ledger {S T A : Type} (m : M (World S T) A) : Prop :=
  ∀ w, same_ledger w (snd (m w)).

(** [isinstance(v, dict)] *)
Definition is_dict (v : value) : bool :=
  match v with VDict _ => true | _ => false end.

(** [old in s]: the text [old] occurs in [s]. *)
Fixpoint occurs (old s : string) : bool :=
  String.prefix old s
  || match s with
     | EmptyString => false
     | String _ s' => occurs old s'
     end.

(** Calls and addresses to run the server on. *)
Module Scenario.
Import Reference.

Definition insight (text : string) : Call :=
  ("append-insight", Some {["insight" := VStr text]}).

(** Two insights, with calls in between that fail or go to the store. *)
Definition session_calls : list Call :=
  [ insight "Sales spike in Q4";
    ("append-insight", None);
    ("find", Some {["collection" := VStr "inventory"; "query" := widgets]});
    ("drop-database", Some confirm);
    insight "Returns fell";
    ("list-collections", None) ].

Definition find_widgets : gmap string value :=
  {["collection" := VStr "inventory"; "query" := widgets]}.

(** A [find] whose collection is a number, which the store refuses. *)
Definition find_in_3 : gmap string value :=
  {["collection" := VInt 3; "query" := widgets]}.

(** The shop after every document has been restocked. *)
Definition all_restocked : MemStore :=
  {| next_oid := 0;
     collections :=
       [("inventory",
         [VDict [("_id", VInt 1); ("product", VStr "Widget"); ("stock", VInt 9)];
          VDict [("_id", VInt 3); ("product", VStr "Gadget"); ("stock", VInt 9)];
          VDict [("_id", VInt 2); ("product", VStr "Widget"); ("stock", VInt 9)]]);
        ("orders", [])] |}.

Definition latest : AnyUrl :=
  {| scheme := "memo"; url_text := "memo://insights/latest" |}.

(** An insight of four lines that imitates a second bullet and the
    summary. *)
Definition imitation : value :=
  VStr ("a" +:+ LF +:+ "- b" +:+ LF +:+ "Summary:" +:+ LF +:+ summary_sentence 2).

End Scenario.

(** ** Exceptions that are not [Exception] *)

(** [handle_call_tool] catches [Exception].  The exceptions below derive
    from [BaseException] only, so its [except] clause lets them pass.
    [asyncio.CancelledError] is what the [await] of the handler raises when
    the task is cancelled while it waits for the session. *)
Inductive BaseExc : Type :=
| CancelledError
| KeyboardInterrupt
| SystemExit.

(** The session as an [await] sees it: the request may return, raise an
    [Exception], or raise one of the above. *)
Class Awaitable (T : Type) := {
  await_send_resource_updated : AnyUrl -> T -> (BaseExc + (exn + unit)) * T
}.

(** A computation that may also raise an exception that is not an
    [Exception]; as before, the state it reached is kept. *)
Definition MX (W A : Type) : Type := W -> (BaseExc + (exn + A)) * W.

#[export] Instance MX_ret {W} : MRet (MX W) := fun A (x : A) w => (inr (inr x), w).

#[export] Instance MX_bind {W} : MBind (MX W) := fun A B (f : A -> MX W B) (m : MX W A) w =>
  match m w with
  | (inr (inr x), w') => f x w'
  | (inr (inl e), w') => (inr (inl e), w')
  | (inl b, w') => (inl b, w')
  end.

(** A computation that raises only instances of [Exception]. *)
Definition lift {W A} (m : M W A) : MX W A :=
  fun w => let '(r, w') := m w in (inr r, w').

(** [try: body except Exception as e: return handler(e)], with what the
    clause does not catch. *)
Definition try_except_Exception {W A} (body : MX W A) (handler : exn -> A)
  : W -> (BaseExc + A) * W :=
  fun w =>
    match body w with
    | (inr (inr x), w') => (inr x, w')
    | (inr (inl e), w') => (inr (handler e), w')
    | (inl b, w') => (inl b, w')
    end.

Section Cancellable.
Context {S T : Type} {store : Store S} {transport : Transport T} {awaitable : Awaitable T}
        {builtins : PyBuiltins}.

(** [await server.request_context.session.send_resource_updated(uri)], with
    the cancellation of the task. *)
Definition await_session_send_resource_updated (uri : AnyUrl) : MX (World S T) unit :=
  fun w =>
    let '(r, t') := await_send_resource_updated uri (session w) in
    (r, log (Notify uri) (set_session t' w)).

(** The body of the [try] of [handle_call_tool], with the cancellation of
    the task.  The [await] of [append-insight] is the only one of the
    handler; the other branches are those of [handle_call_tool_body]. *)
Definition handle_call_tool_body_async (name : string)
    (arguments : option (gmap string value)) : MX (World S T) (list Content) :=
  if String.eqb name "list-collections" then
    lift (handle_call_tool_body name arguments)
  else if String.eqb name "append-insight" then
    match arguments with
    | Some args =>
        if not_ arguments || not_in "insight" args then
          lift (raise (ValueError "Missing insight argument"))
        else
          insight ← lift (of_result (getitem args "insight"));
          lift (insights_append insight);;
          _ ← lift synthesize_memo_call;
          await_session_send_resource_updated memo_insights;;
          mret [TextContent "Insight added to memo"]
    | None => lift (raise (ValueError "Missing insight argument"))
    end
  else
    lift (handle_call_tool_body name arguments).

(** [handle_call_tool], with the cancellation of the task: the outcome is
    the content returned, or the exception that escapes. *)
Definition handle_call_tool_async (name : string) (arguments : option (gmap string value))
  : World S T -> (BaseExc + list Content) * World S T :=
  try_except_Exception (handle_call_tool_body_async name arguments)
                       (fun e => [TextContent ("Error: " +:+ exn_str e)]).

End Cancellable.

(** A task of the server on the reference session: the [await] raises
    [CancelledError] when the task has been cancelled, and is the send of the
    session otherwise. *)
Module Cancelling.
Import Reference.

Record Task : Type := {
  channel : Session;
  cancel_requested : bool
}.

#[export] Instance task_transport : Transport Task := {|
  send_resource_updated := fun uri task =>
    let '(r, t') := send_resource_updated uri (channel task) in
    (r, {| channel := t'; cancel_requested := cancel_requested task |})
|}.

#[export] Instance task_awaitable : Awaitable Task := {|
  await_send_resource_updated := fun uri task =>
    if cancel_requested task then (inl CancelledError, task)
    else let '(r, task') := send_resource_updated uri task in (inr r, task')
|}.

Definition task_world (cancel : bool) (store : MemStore) : World MemStore Task :=
  {| db := store; insights := [];
     session := {| channel := {| closed := false; outbox := [] |};
                   cancel_requested := cancel |};
     journal := [] |}.

(** The shop, served by a task that runs to its end, and by one that is
    cancelled. *)
Definition running_shop : World MemStore Task := task_world false (db shop).

Definition cancelled_shop : World MemStore Task := task_world true (db shop).

(** The shop, served over a session that has been closed. *)
Definition closed_shop : World MemStore Task :=
  set_session {| channel := {| closed := true; outbox := [] |}; cancel_requested := false |}
              running_shop.

Definition existing : gmap string value := {["name" := VStr "inventory"]}.

End Cancelling.

(** * Properties *)

(** ** Strings and lines *)

Lemma str_app_cons (x : ascii) (a b : string) : String x a +:+ b = String x (a +:+ b).
Proof. reflexivity. Qed.

Lemma str_app_assoc (a b c : string) : (a +:+ b) +:+ c = a +:+ (b +:+ c).
Proof.
  induction a as [|x a IH]; [reflexivity |].
  rewrite !str_app_cons. f_equal. exact IH.
Qed.

Lemma join_cons (sep x : string) (xs : list string) :
  xs ≠ [] → String.concat sep (x :: xs) = x +:+ sep +:+ String.concat sep xs.
Proof. destruct xs; [done | reflexivity]. Qed.

Lemma join_app (sep : string) (xs ys : list string) :
  xs ≠ [] → ys ≠ [] →
  String.concat sep (xs ++ ys) = String.concat sep xs +:+ sep +:+ String.concat sep ys.
Proof.
  intros Hxs Hys. induction xs as [|x xs IH]; [done |].
  destruct xs as [|x' xs].
  - simpl app. by rewrite join_cons.
  - change ((x :: x' :: xs) ++ ys)%list with (x :: ((x' :: xs) ++ ys)%list).
    rewrite (join_cons sep x ((x' :: xs) ++ ys)%list) by done.
    rewrite (join_cons sep x (x' :: xs)) by done.
    rewrite IH by done. by rewrite !str_app_assoc.
Qed.

Lemma one_line_cons (c : ascii) (s : string) :
  one_line (String c s) = negb (Ascii.eqb c "010") && one_line s.
Proof.
  unfold one_line, contains_char. cbn [list_ascii_of_string existsb].
  rewrite negb_orb. by rewrite (Ascii.eqb_sym "010"%char c).
Qed.

Lemma one_line_app (a b : string) : one_line (a +:+ b) = one_line a && one_line b.
Proof.
  induction a as [|c a IH]; [reflexivity |].
  rewrite str_app_cons, !one_line_cons, IH. by rewrite andb_assoc.
Qed.

Lemma split_lines_one (s : string) : one_line s = true → split_lines s = [s].
Proof.
  induction s as [|c s IH]; [reflexivity |].
  rewrite one_line_cons. intros [Hc Hs]%andb_true_iff.
  simpl. apply negb_true_iff in Hc. rewrite Hc, (IH Hs). reflexivity.
Qed.

Lemma split_lines_app (a b : string) :
  one_line a = true → split_lines (a +:+ LF +:+ b) = a :: split_lines b.
Proof.
  induction a as [|c a IH]; [reflexivity |].
  rewrite one_line_cons. intros [Hc Ha]%andb_true_iff.
  rewrite str_app_cons. simpl split_lines. apply negb_true_iff in Hc. rewrite Hc.
  by rewrite (IH Ha).
Qed.

Lemma split_lines_concat (lines : list string) :
  lines ≠ [] → forallb one_line lines = true →
  split_lines (String.concat LF lines) = lines.
Proof.
  induction lines as [|l lines IH]; [done |]. intros _.
  simpl forallb. intros [Hl Hls]%andb_true_iff.
  destruct lines as [|l' lines].
  - by apply split_lines_one.
  - rewrite join_cons by done. rewrite split_lines_app by done.
    by rewrite IH.
Qed.

Lemma pretty_N_char_one_line (x : N) : Ascii.eqb (pretty_N_char x) "010" = false.
Proof. unfold pretty_N_char. repeat case_match; reflexivity. Qed.

Lemma pretty_N_go_one_line (x : N) (s : string) :
  one_line s = true → one_line (pretty_N_go x s) = true.
Proof.
  revert s. induction (N.lt_wf_0 x) as [x _ IH]. intros s Hs.
  destruct (decide (x = 0%N)) as [->|Hx].
  - by rewrite pretty_N_go_0.
  - rewrite pretty_N_go_step by lia. apply IH.
    + apply N.div_lt; lia.
    + by rewrite one_line_cons, pretty_N_char_one_line.
Qed.

Lemma pretty_nat_one_line (n : nat) : one_line (pretty n) = true.
Proof.
  unfold pretty, pretty_nat, pretty, pretty_N. case_decide; [reflexivity |].
  by apply pretty_N_go_one_line.
Qed.

Lemma summary_sentence_one_line (n : nat) : one_line (summary_sentence n) = true.
Proof.
  unfold summary_sentence. by rewrite !one_line_app, pretty_nat_one_line.
Qed.

Lemma summary_lines_one_line (n : nat) : forallb one_line (summary_lines n) = true.
Proof.
  unfold summary_lines. case_match; [| reflexivity].
  cbn [forallb]. by rewrite summary_sentence_one_line.
Qed.

(** The string functions, on the texts the program meets. *)
Example repr_str_query : repr_str "query" = "'query'".
Proof. reflexivity. Qed.

Example repr_str_apostrophe : repr_str "it's" = String "034" ("it's" +:+ String "034" "").
Proof. reflexivity. Qed.

Example str_replace_address : str_replace "memo://" "" "memo://insights" = "insights".
Proof. reflexivity. Qed.

Example str_replace_leftmost : str_replace "aa" "b" "aaaaa" = "bba".
Proof. reflexivity. Qed.

Example oid_hex_255 : oid_hex 255 = "0000000000000000000000ff".
Proof. reflexivity. Qed.

Example split_lines_two : split_lines ("- a" +:+ LF +:+ "- b") = ["- a"; "- b"].
Proof. reflexivity. Qed.

(** ** The memo *)

Section Memo.
Context {builtins : PyBuiltins}.

Lemma memo_lines_not_nil (insights : list value) : memo_lines insights ≠ [].
Proof. done. Qed.

(** The memo of a ledger that is not empty is its lines joined by line
    breaks. *)
Lemma memo_of_lines (insights : list value) :
  insights ≠ [] → _synthesize_memo insights = String.concat LF (memo_lines insights).
Proof.
  intros Hne. unfold memo_lines, header_lines, summary_lines.
  destruct insights as [|i rest]; [done |].
  unfold _synthesize_memo. fold (bullet (builtins := _)).
  set (bullets := map bullet (i :: rest)).
  assert (Hb : bullets ≠ []) by done.
  cbn [length Nat.ltb Nat.leb].
  destruct rest as [|i' rest'].
  - cbn [length Nat.leb]. rewrite app_nil_r.
    rewrite !join_app by done. cbn [String.concat].
    by rewrite !str_app_assoc.
  - cbn [length Nat.leb].
    rewrite (join_app LF _ (bullets ++ _)) by (by destruct bullets).
    rewrite (join_app LF bullets) by done.
    cbn [String.concat]. fold (summary_sentence (S (S (length rest')))).
    by rewrite !str_app_assoc.
Qed.

Lemma memo_lines_one_line (insights : list value) :
  Forall (fun insight => one_line (str insight) = true) insights →
  forallb one_line (memo_lines insights) = true.
Proof.
  intros Hall. unfold memo_lines. rewrite !forallb_app.
  rewrite summary_lines_one_line, andb_true_r.
  apply andb_true_iff; split; [reflexivity |].
  induction Hall as [|i l Hi _ IH]; [reflexivity |].
  cbn [map forallb]. rewrite IH, andb_true_r.
  unfold bullet. by rewrite one_line_app, Hi.
Qed.

Lemma memo_lines_bullet (insights : list value) (k : nat) (insight : value) :
  insights !! k = Some insight → memo_lines insights !! (4 + k) = Some (bullet insight).
Proof.
  intros Hk. unfold memo_lines.
  rewrite lookup_app_r by (cbn; lia).
  replace (4 + k - length header_lines) with k by (cbn; lia).
  rewrite lookup_app_l by (rewrite length_map; by eapply lookup_lt_Some).
  by rewrite list_lookup_fmap, Hk.
Qed.

(** C1.  On an empty ledger the memo is exactly the fixed no-insights
    sentence.  On a ledger that is not empty it is a text of lines: the four
    header lines, then one line per insight, the insight's text after the
    prefix [- ], at position [4 + k] for the [k]-th insight of the ledger, then
    the two summary lines, which are there if and only if there is more than
    one insight and state their number.  When no insight has a line break in
    it, these are exactly the lines of the memo. *)
Theorem synthesize_memo_layout (insights : list value) :
  (insights = [] → _synthesize_memo insights = no_insights_sentence)
  ∧ (insights ≠ [] →
       _synthesize_memo insights =
         String.concat LF
           (header_lines ++ map (fun insight => "- " +:+ str insight) insights
                         ++ summary_lines (length insights))
       ∧ (∀ k insight, insights !! k = Some insight →
            memo_lines insights !! (4 + k) = Some ("- " +:+ str insight))
       ∧ (Forall (fun insight => one_line (str insight) = true) insights →
            split_lines (_synthesize_memo insights) = memo_lines insights))
  ∧ (summary_lines (length insights)
       = ["Summary:"; summary_sentence (length insights)] ↔ (1 < length insights)%nat)
  ∧ (summary_lines (length insights) = [] ↔ (length insights ≤ 1)%nat).
Proof.
  split; [by intros -> |]. split.
  - intros Hne. split; [by apply memo_of_lines |]. split.
    + intros k insight Hk. by apply memo_lines_bullet.
    + intros Hall. rewrite memo_of_lines by done.
      apply split_lines_concat; [apply memo_lines_not_nil |].
      by apply memo_lines_one_line.
  - unfold summary_lines.
    destruct (Nat.ltb_spec 1 (length insights)); split; split;
      first [done | lia | discriminate].
Qed.

End Memo.

(** ** The router *)

Section Router.
Context {S T : Type} {store : Store S} {transport : Transport T} {builtins : PyBuiltins}.

Local Abbreviation W := (World S T).

Lemma bind_run {A B} (m : M W A) (f : A → M W B) (w : W) :
  (m ≫= f) w =
  match m w with
  | (inr x, w') => f x w'
  | (inl e, w') => (inl e, w')
  end.
Proof. reflexivity. Qed.

Lemma not_in_None (key : string) (args : gmap string value) :
  not_in key args = true ↔ args !! key = None.
Proof. unfold not_in. destruct (args !! key); split; congruence. Qed.

Lemma not__Some (args : gmap string value) : not_ (Some args) = false ↔ args ≠ ∅.
Proof. unfold not_. rewrite bool_decide_eq_false. done. Qed.

Lemma body_append_insight (arguments : option (gmap string value)) :
  handle_call_tool_body "append-insight" arguments =
  match arguments with
  | Some args =>
      if not_ arguments || not_in "insight" args then
        raise (ValueError "Missing insight argument")
      else
        insight ← of_result (getitem args "insight");
        insights_append insight;;
        _ ← synthesize_memo_call;
        session_send_resource_updated memo_insights;;
        mret [TextContent "Insight added to memo"]
  | None => raise (ValueError "Missing insight argument")
  end.
Proof. reflexivity. Qed.

(** What [append-insight] does once the key is there. *)
Lemma append_insight_run (args : gmap string value) (insight : value) (w : W) :
  args !! "insight" = Some insight →
  handle_call_tool "append-insight" (Some args) w =
  (match fst (send_resource_updated memo_insights (session w)) with
   | inr _ => [TextContent "Insight added to memo"]
   | inl e => [TextContent ("Error: " +:+ exn_str e)]
   end,
   {| db := db w;
      insights := insights w ++ [insight];
      session := snd (send_resource_updated memo_insights (session w));
      journal := journal w ++ [Appended insight;
                               Synthesized (_synthesize_memo (insights w ++ [insight]));
                               Notify memo_insights] |}).
Proof.
  intros Hin. unfold handle_call_tool, try_except. rewrite body_append_insight.
  assert (Hne : not_ (Some args) = false).
  { apply not__Some. intros ->. by rewrite lookup_empty in Hin. }
  assert (Hk : not_in "insight" args = false).
  { unfold not_in. by rewrite Hin. }
  rewrite Hne, Hk. cbn [orb].
  rewrite !bind_run. unfold of_result, getitem. rewrite Hin.
  unfold insights_append. rewrite !bind_run.
  unfold synthesize_memo_call. rewrite !bind_run.
  unfold session_send_resource_updated.
  cbn [session set_session set_insights log db insights journal].
  destruct (send_resource_updated memo_insights (session w)) as [[e|[]] t'];
    cbn [fst snd]; unfold log, set_session, set_insights, mret, M_ret;
    cbn [db insights session journal]; rewrite <- !app_assoc; reflexivity.
Qed.

Lemma append_insight_invalid (arguments : option (gmap string value)) (w : W) :
  lacks_insight arguments →
  handle_call_tool "append-insight" arguments w =
  ([TextContent "Error: Missing insight argument"], w).
Proof.
  intros Hl. unfold handle_call_tool, try_except. rewrite body_append_insight.
  destruct arguments as [args|]; [| reflexivity].
  cbn in Hl. apply not_in_None in Hl. rewrite Hl, orb_true_r. reflexivity.
Qed.

Lemma answers_text_ret (text : string) : answers_text (W := W) (mret [TextContent text]).
Proof. intros w r w' [= <- _]. eauto. Qed.

Lemma answers_text_raise (e : exn) : answers_text (W := W) (raise e).
Proof. intros w r w' [=]. Qed.

Lemma answers_text_bind {A} (m : M W A) (f : A → M W (list Content)) :
  (∀ x, answers_text (f x)) → answers_text (m ≫= f).
Proof.
  intros Hf w r w'. rewrite bind_run.
  destruct (m w) as [[e|x] w1]; [intros [=] | apply Hf].
Qed.

Lemma answers_text_results {A} (m : M W A) (results : A → list value) :
  answers_text (x ← m; mret (text_of_results (results x))).
Proof. apply answers_text_bind. intros x. apply answers_text_ret. Qed.

Lemma handle_call_tool_body_text (name : string) (arguments : option (gmap string value)) :
  answers_text (handle_call_tool_body name arguments).
Proof.
  unfold handle_call_tool_body.
  repeat first
    [ apply answers_text_raise
    | apply answers_text_ret
    | apply (answers_text_results _ (fun results => results))
    | apply answers_text_bind; intros ?
    | case_match ].
Qed.

Lemma body_other (name : string) (arguments : option (gmap string value)) :
  name ≠ "list-collections" → name ≠ "append-insight" →
  not_ arguments = true →
  handle_call_tool_body name arguments = raise (ValueError "Missing arguments").
Proof.
  intros H1%String.eqb_neq H2%String.eqb_neq Hn.
  unfold handle_call_tool_body. rewrite H1, H2.
  destruct arguments; [by rewrite Hn | reflexivity].
Qed.

Lemma body_unknown (name : string) (args : gmap string value) :
  name ∉ tool_names → args ≠ ∅ →
  handle_call_tool_body name (Some args) = raise (ValueError ("Unknown tool: " +:+ name)).
Proof.
  intros Hname Hargs%not__Some.
  assert (Hneq : ∀ tool, tool ∈ tool_names → String.eqb name tool = false).
  { intros tool Hin. apply String.eqb_neq. intros ->. contradiction. }
  unfold handle_call_tool_body. rewrite Hargs.
  rewrite !Hneq by (unfold tool_names; cbn; set_solver).
  reflexivity.
Qed.

Lemma first_missing_exists (keys : list string) (args : gmap string value) (field : string) :
  field ∈ keys → args !! field = None →
  ∃ key, first_missing keys args = Some key ∧ key ∈ keys ∧ args !! key = None.
Proof.
  intros Hin Hnone. unfold first_missing.
  induction keys as [|k keys IH]; [by apply elem_of_nil in Hin |].
  cbn [find]. destruct (not_in k args) eqn:Hk.
  - exists k. repeat split; [constructor | by apply not_in_None].
  - apply elem_of_cons in Hin as [-> | Hin].
    + apply not_in_None in Hnone. congruence.
    + destruct (IH Hin) as (key & Hfind & Hkeys & Hkey).
      exists key. repeat split; [done | by constructor | done].
Qed.

(** The router looks up exactly the keys the schema of the tool requires. *)
Lemma lookup_order_required (name : string) :
  name ∈ gateway_tools → lookup_order name ≡ₚ required_fields name.
Proof.
  intros Hname. unfold gateway_tools in Hname.
  repeat (apply elem_of_cons in Hname as [-> | Hname]);
    [ .. | by apply elem_of_nil in Hname ];
    vm_compute; eauto using Permutation.
Qed.

(** The keys the router looks up are plain words: their [repr] is the key
    between single quotes. *)
Lemma repr_lookup_key (name key : string) :
  name ∈ gateway_tools → key ∈ lookup_order name → repr_str key = "'" +:+ key +:+ "'".
Proof.
  intros Hname Hkey. unfold gateway_tools in Hname.
  repeat (apply elem_of_cons in Hname as [-> | Hname]);
    [ .. | by apply elem_of_nil in Hname ];
    vm_compute in Hkey;
    repeat (apply elem_of_cons in Hkey as [-> | Hkey]);
    first [reflexivity | by apply elem_of_nil in Hkey].
Qed.

(** The router, on a gateway tool whose first lookups succeed up to a
    missing key, raises the [KeyError] of that key and leaves the world as
    it was. *)
Lemma body_missing_key (name : string) (args : gmap string value) (key : string) (w : W) :
  name ∈ gateway_tools → args ≠ ∅ →
  first_missing (lookup_order name) args = Some key →
  handle_call_tool_body name (Some args) w = (inl (KeyError key), w).
Proof.
  intros Hname Hargs%not__Some Hkey.
  unfold gateway_tools in Hname.
  repeat (apply elem_of_cons in Hname as [-> | Hname]);
    [ .. | by apply elem_of_nil in Hname ];
    unfold handle_call_tool_body; rewrite Hargs;
    cbn [String.eqb Ascii.eqb Bool.eqb] in *;
    unfold lookup_order, first_missing in Hkey;
    cbn [String.eqb Ascii.eqb Bool.eqb find] in Hkey;
    unfold not_in in Hkey; rewrite !bind_run; unfold of_result, getitem;
    repeat (case_match; simplify_eq; try reflexivity).
Qed.

(** ** The gateway *)

Lemma execute_insert_many (documents : list value) (collection_name : value)
    (coll : Collection) (r : InsertManyResult) (s' : S) (w : W) :
  db_getitem (db w) collection_name = inr coll →
  coll_insert_many coll documents (db w) = (inr r, s') →
  _execute_query (VList documents) "insert" collection_name w =
  (inr [VDict [("inserted_ids", VList (map VStr (map str (inserted_ids r))))]], set_db s' w).
Proof.
  intros Hc Hs. unfold _execute_query, try_reraise. rewrite bind_run, Hc.
  cbn [String.eqb Ascii.eqb Bool.eqb]. rewrite bind_run. unfold store_call. rewrite Hs.
  by rewrite map_map.
Qed.

Lemma execute_insert_one (query collection_name : value)
    (coll : Collection) (r : InsertOneResult) (s' : S) (w : W) :
  db_getitem (db w) collection_name = inr coll →
  is_list query = false →
  coll_insert_one coll query (db w) = (inr r, s') →
  _execute_query query "insert" collection_name w =
  (inr [VDict [("inserted_id", VStr (str (inserted_id r)))]], set_db s' w).
Proof.
  intros Hc Hq Hs. unfold _execute_query, try_reraise. rewrite bind_run, Hc.
  cbn [String.eqb Ascii.eqb Bool.eqb].
  destruct query; try discriminate Hq;
    rewrite bind_run; unfold store_call; by rewrite Hs.
Qed.

Lemma execute_update (query collection_name filter update : value)
    (coll : Collection) (r : UpdateResult) (s' : S) (w : W) :
  db_getitem (db w) collection_name = inr coll →
  dict_get query "filter" (VDict []) = inr filter →
  dict_get query "update" (VDict []) = inr update →
  coll_update_many coll filter update (db w) = (inr r, s') →
  _execute_query query "update" collection_name w =
  (inr [VDict [("modified_count", VInt (Z.of_nat (modified_count r)))]], set_db s' w).
Proof.
  intros Hc Hf Hu Hs. unfold _execute_query, try_reraise. rewrite bind_run, Hc.
  cbn [String.eqb Ascii.eqb Bool.eqb]. rewrite bind_run. unfold of_result at 1. rewrite Hf.
  rewrite bind_run. unfold of_result at 1. rewrite Hu.
  rewrite bind_run. unfold store_call. by rewrite Hs.
Qed.

Lemma execute_delete (query collection_name : value)
    (coll : Collection) (r : DeleteResult) (s' : S) (w : W) :
  db_getitem (db w) collection_name = inr coll →
  coll_delete_many coll query (db w) = (inr r, s') →
  _execute_query query "delete" collection_name w =
  (inr [VDict [("deleted_count", VInt (Z.of_nat (deleted_count r)))]], set_db s' w).
Proof.
  intros Hc Hs. unfold _execute_query, try_reraise. rewrite bind_run, Hc.
  cbn [String.eqb Ascii.eqb Bool.eqb]. rewrite bind_run. unfold store_call. by rewrite Hs.
Qed.

(** The [insert] tool hands [arguments["documents"]] and
    [arguments["collection"]] to the gateway and prints what it returns. *)
Lemma call_insert (args : gmap string value) (documents collection_name : value) (w : W) :
  args !! "documents" = Some documents →
  args !! "collection" = Some collection_name →
  handle_call_tool "insert" (Some args) w =
  match _execute_query documents "insert" collection_name w with
  | (inr results, w') => (text_of_results results, w')
  | (inl e, w') => ([TextContent ("Error: " +:+ exn_str e)], w')
  end.
Proof.
  intros Hd Hc.
  assert (Hne : not_ (Some args) = false).
  { apply not__Some. intros ->. by rewrite lookup_empty in Hd. }
  unfold handle_call_tool, try_except, handle_call_tool_body.
  cbn [String.eqb Ascii.eqb Bool.eqb]. rewrite Hne.
  rewrite !bind_run. unfold of_result, getitem. rewrite Hd.
  rewrite !bind_run. rewrite Hc. rewrite bind_run.
  by destruct (_execute_query documents "insert" collection_name w) as [[e|results] w'].
Qed.

(** The [update] and [delete] tools, likewise. *)
Lemma call_update (args : gmap string value) (filter update collection_name : value) (w : W) :
  args !! "filter" = Some filter →
  args !! "update" = Some update →
  args !! "collection" = Some collection_name →
  handle_call_tool "update" (Some args) w =
  match _execute_query (VDict [("filter", filter); ("update", update)])
                       "update" collection_name w with
  | (inr results, w') => (text_of_results results, w')
  | (inl e, w') => ([TextContent ("Error: " +:+ exn_str e)], w')
  end.
Proof.
  intros Hf Hu Hc.
  assert (Hne : not_ (Some args) = false).
  { apply not__Some. intros ->. by rewrite lookup_empty in Hf. }
  unfold handle_call_tool, try_except, handle_call_tool_body.
  cbn [String.eqb Ascii.eqb Bool.eqb]. rewrite Hne.
  rewrite !bind_run. unfold of_result, getitem. rewrite Hf.
  rewrite !bind_run. rewrite Hu. rewrite !bind_run. rewrite Hc. rewrite bind_run.
  by destruct (_execute_query _ "update" collection_name w) as [[e|results] w'].
Qed.

Lemma call_delete (args : gmap string value) (filter collection_name : value) (w : W) :
  args !! "filter" = Some filter →
  args !! "collection" = Some collection_name →
  handle_call_tool "delete" (Some args) w =
  match _execute_query filter "delete" collection_name w with
  | (inr results, w') => (text_of_results results, w')
  | (inl e, w') => ([TextContent ("Error: " +:+ exn_str e)], w')
  end.
Proof.
  intros Hf Hc.
  assert (Hne : not_ (Some args) = false).
  { apply not__Some. intros ->. by rewrite lookup_empty in Hf. }
  unfold handle_call_tool, try_except, handle_call_tool_body.
  cbn [String.eqb Ascii.eqb Bool.eqb]. rewrite Hne.
  rewrite !bind_run. unfold of_result, getitem. rewrite Hf.
  rewrite !bind_run. rewrite Hc. rewrite bind_run.
  by destruct (_execute_query filter "delete" collection_name w) as [[e|results] w'].
Qed.

(** ** The claims about the router and the gateway *)

(** As long as only instances of [Exception] are raised, a tool call
    answers with exactly one textual item: whenever the body of the [try]
    raises [e], the item reads [Error: ] followed by [str(e)]; the world is
    the one the body left. *)
Lemma call_tool_answers_text (name : string)
    (arguments : option (gmap string value)) (w : W) :
  ∃ text,
    fst (handle_call_tool name arguments w) = [TextContent text]
    ∧ Forall (fun item => is_text item = true) (fst (handle_call_tool name arguments w))
    ∧ (∀ e, fst (handle_call_tool_body name arguments w) = inl e →
         text = "Error: " +:+ exn_str e)
    ∧ snd (handle_call_tool name arguments w) = snd (handle_call_tool_body name arguments w).
Proof.
  unfold handle_call_tool, try_except.
  destruct (handle_call_tool_body name arguments w) as [[e|r] w'] eqn:Hbody.
  - exists ("Error: " +:+ exn_str e). cbn [fst snd].
    repeat split; [by repeat constructor | by intros ? [= ->]].
  - destruct (handle_call_tool_body_text name arguments w r w' Hbody) as [text ->].
    exists text. cbn [fst snd]. repeat split; [by repeat constructor | intros ? [=]].
Qed.

(** C3.  [append-insight] with no payload, or with a payload that lacks the
    key [insight], answers [Error: Missing insight argument] and changes
    nothing.  With the key there, the insight is appended to the ledger, the
    memo of the extended ledger is computed and dropped, the session is asked
    to send the resource-updated notification for [memo://insights], in that
    order and nothing else; and once that request has returned the call
    answers [Insight added to memo]. *)
Theorem append_insight_steps (arguments : option (gmap string value)) (w : W) :
  (lacks_insight arguments →
     handle_call_tool "append-insight" arguments w =
       ([TextContent "Error: Missing insight argument"], w))
  ∧ (∀ args insight, arguments = Some args → args !! "insight" = Some insight →
       let w' := snd (handle_call_tool "append-insight" arguments w) in
       insights w' = insights w ++ [insight]
       ∧ journal w' = journal w ++
           [Appended insight;
            Synthesized (_synthesize_memo (insights w ++ [insight]));
            Notify memo_insights]
       ∧ db w' = db w
       ∧ session w' = snd (send_resource_updated memo_insights (session w))
       ∧ (fst (send_resource_updated memo_insights (session w)) = inr tt →
            fst (handle_call_tool "append-insight" arguments w) =
              [TextContent "Insight added to memo"])).
Proof.
  split; [apply append_insight_invalid |].
  intros args insight -> Hin. rewrite (append_insight_run _ _ _ Hin). cbn [fst snd].
  repeat split. by intros ->.
Qed.

(** C4.  Reading [memo://insights] returns the memo synthesized from the
    ledger as it is at the call, so a read after an [append-insight] (whatever
    that call answered) shows the new insight as the last bullet line; a read
    whose scheme is not [memo], or whose path is not [insights], raises a
    [ValueError], which is the outcome of the handler and not a text. *)
Theorem read_resource_fresh_or_fault (uri : AnyUrl) (w : W) :
  handle_read_resource memo_insights w = inr (_synthesize_memo (insights w))
  ∧ (scheme uri = "memo" → resource_path uri = "insights" →
       handle_read_resource uri w = inr (_synthesize_memo (insights w)))
  ∧ (scheme uri ≠ "memo" →
       handle_read_resource uri w =
         inl (ValueError ("Unsupported URI scheme: " +:+ scheme uri)))
  ∧ (scheme uri = "memo" → resource_path uri ≠ "insights" →
       handle_read_resource uri w =
         inl (ValueError ("Unknown resource path: " +:+ resource_path uri)))
  ∧ (∀ args insight, args !! "insight" = Some insight →
       let w' := snd (handle_call_tool "append-insight" (Some args) w) in
       handle_read_resource memo_insights w' =
         inr (String.concat LF (memo_lines (insights w ++ [insight])))
       ∧ memo_lines (insights w ++ [insight]) !! (4 + length (insights w))
           = Some ("- " +:+ str insight)).
Proof.
  split; [reflexivity |]. split; [| split; [| split]].
  - intros Hs Hp. unfold handle_read_resource. by rewrite Hs, Hp.
  - intros Hs%String.eqb_neq. unfold handle_read_resource. by rewrite Hs.
  - intros Hs Hp%String.eqb_neq. unfold handle_read_resource. rewrite Hs, Hp.
    cbn [String.eqb negb]. by rewrite orb_true_r.
  - intros args insight Hin. rewrite (append_insight_run _ _ _ Hin). cbn [snd].
    split.
    + change (handle_read_resource memo_insights ?x) with (inr (A := exn) (_synthesize_memo (insights x))).
      cbn [insights]. rewrite memo_of_lines; [done | by destruct (insights w)].
    + apply memo_lines_bullet. by rewrite lookup_app_r, Nat.sub_diag.
Qed.

(** C5.  A tool call whose name is none of the eight tools and whose
    arguments are not empty answers the single text [Error: Unknown tool: ]
    followed by the name, and changes nothing. *)
Theorem unknown_tool_error (name : string) (args : gmap string value) (w : W) :
  name ∉ tool_names → args ≠ ∅ →
  handle_call_tool name (Some args) w =
    ([TextContent ("Error: Unknown tool: " +:+ name)], w).
Proof.
  intros Hname Hargs. unfold handle_call_tool, try_except.
  by rewrite body_unknown.
Qed.

(** C6.  With the payload absent or empty, a tool other than
    [append-insight] and [list-collections] answers
    [Error: Missing arguments]; [append-insight] answers its own
    [Error: Missing insight argument]; [list-collections] does not look at
    the payload and answers the names the store lists. *)
Theorem missing_arguments_error (name : string)
    (arguments : option (gmap string value)) (w : W) :
  arguments = None ∨ arguments = Some ∅ →
  (name ≠ "append-insight" → name ≠ "list-collections" →
     handle_call_tool name arguments w = ([TextContent "Error: Missing arguments"], w))
  ∧ (name = "append-insight" →
       handle_call_tool name arguments w =
         ([TextContent "Error: Missing insight argument"], w))
  ∧ (name = "list-collections" →
       ∀ names s', db_list_collection_names (db w) = (inr names, s') →
         handle_call_tool name arguments w =
           ([TextContent (str (VList (map VStr names)))], set_db s' w)).
Proof.
  intros Hargs. split; [| split].
  - intros Ha Hl. unfold handle_call_tool, try_except.
    rewrite body_other; [reflexivity | done | done |].
    by destruct Hargs as [-> | ->].
  - intros ->. apply append_insight_invalid.
    destruct Hargs as [-> | ->]; [done | apply lookup_empty].
  - intros -> names s' Hs. unfold handle_call_tool, try_except, handle_call_tool_body.
    cbn [String.eqb Ascii.eqb Bool.eqb]. rewrite bind_run. unfold store_call. by rewrite Hs.
Qed.

(** C7.  The gateway's [insert] takes a sequence of documents or a single
    document.  For a sequence it calls the store's [insert_many] and returns
    one document whose [inserted_ids] are the [str] of the identifiers the
    store reports, in order; for anything else it calls [insert_one] and
    returns one document whose [inserted_id] is the [str] of the identifier.
    Either way the identifiers come back as strings.  The [insert] tool passes
    [arguments["documents"]] and prints that result. *)
Theorem insert_ids_as_strings (query collection_name : value) (coll : Collection) (w : W) :
  db_getitem (db w) collection_name = inr coll →
  (∀ documents r s', query = VList documents →
     coll_insert_many coll documents (db w) = (inr r, s') →
     _execute_query query "insert" collection_name w =
       (inr [VDict [("inserted_ids", VList (map VStr (map str (inserted_ids r))))]],
        set_db s' w)
     ∧ ∀ args, args !! "documents" = Some query →
         args !! "collection" = Some collection_name →
         handle_call_tool "insert" (Some args) w =
           (text_of_results
              [VDict [("inserted_ids", VList (map VStr (map str (inserted_ids r))))]],
            set_db s' w))
  ∧ (∀ r s', is_list query = false →
     coll_insert_one coll query (db w) = (inr r, s') →
     _execute_query query "insert" collection_name w =
       (inr [VDict [("inserted_id", VStr (str (inserted_id r)))]], set_db s' w)
     ∧ ∀ args, args !! "documents" = Some query →
         args !! "collection" = Some collection_name →
         handle_call_tool "insert" (Some args) w =
           (text_of_results [VDict [("inserted_id", VStr (str (inserted_id r)))]],
            set_db s' w)).
Proof.
  intros Hc. split.
  - intros documents r s' -> Hs.
    pose proof (execute_insert_many _ _ _ _ _ _ Hc Hs) as Hrun. split; [done |].
    intros args Hd Hcoll. by rewrite (call_insert _ _ _ _ Hd Hcoll), Hrun.
  - intros r s' Hq Hs.
    pose proof (execute_insert_one _ _ _ _ _ _ Hc Hq Hs) as Hrun. split; [done |].
    intros args Hd Hcoll. by rewrite (call_insert _ _ _ _ Hd Hcoll), Hrun.
Qed.

(** C8.  The gateway's [update] calls the store's [update_many] (the
    multi-document operation, not [update_one]) with the filter and the update
    operations of the query and returns [modified_count] of its result; its
    [delete] calls [delete_many] (not [delete_one]) with the query as filter
    and returns [deleted_count].  The store is left as that operation left
    it.  The [update] and [delete] tools reach the gateway with the filter
    and the update operations of their arguments. *)
Theorem update_delete_many (query collection_name : value) (coll : Collection) (w : W) :
  db_getitem (db w) collection_name = inr coll →
  (∀ filter update r s',
     dict_get query "filter" (VDict []) = inr filter →
     dict_get query "update" (VDict []) = inr update →
     coll_update_many coll filter update (db w) = (inr r, s') →
     _execute_query query "update" collection_name w =
       (inr [VDict [("modified_count", VInt (Z.of_nat (modified_count r)))]], set_db s' w))
  ∧ (∀ r s',
     coll_delete_many coll query (db w) = (inr r, s') →
     _execute_query query "delete" collection_name w =
       (inr [VDict [("deleted_count", VInt (Z.of_nat (deleted_count r)))]], set_db s' w))
  ∧ (∀ args filter update r s',
     args !! "filter" = Some filter → args !! "update" = Some update →
     args !! "collection" = Some collection_name →
     coll_update_many coll filter update (db w) = (inr r, s') →
     handle_call_tool "update" (Some args) w =
       (text_of_results [VDict [("modified_count", VInt (Z.of_nat (modified_count r)))]],
        set_db s' w))
  ∧ (∀ args r s',
     args !! "filter" = Some query → args !! "collection" = Some collection_name →
     coll_delete_many coll query (db w) = (inr r, s') →
     handle_call_tool "delete" (Some args) w =
       (text_of_results [VDict [("deleted_count", VInt (Z.of_nat (deleted_count r)))]],
        set_db s' w)).
Proof.
  intros Hc. split; [| split; [| split]].
  - intros filter update r s'. by apply execute_update.
  - intros r s'. by apply execute_delete.
  - intros args filter update r s' Hf Hu Hcoll Hs.
    rewrite (call_update _ _ _ _ _ Hf Hu Hcoll).
    by rewrite (execute_update (VDict [("filter", filter); ("update", update)]) _
                  filter update coll r s' w Hc eq_refl eq_refl Hs).
  - intros args r s' Hf Hcoll Hs.
    rewrite (call_delete _ _ _ _ Hf Hcoll).
    by rewrite (execute_delete _ _ coll r s' w Hc Hs).
Qed.

(** C9.  A call to one of the six gateway tools with arguments that are not
    empty but lack a key the tool's schema requires answers [Error: ]
    followed by a missing required key between single quotes, the [repr] of
    the key and nothing more: the first key, in the order the router looks
    them up, that the arguments lack.  The world is unchanged. *)
Theorem missing_field_key_error (name : string) (args : gmap string value)
    (field : string) (w : W) :
  name ∈ gateway_tools → args ≠ ∅ →
  field ∈ required_fields name → args !! field = None →
  ∃ key,
    first_missing (lookup_order name) args = Some key
    ∧ key ∈ required_fields name ∧ args !! key = None
    ∧ handle_call_tool name (Some args) w = ([TextContent ("Error: '" +:+ key +:+ "'")], w).
Proof.
  intros Hname Hargs Hfield Hmiss.
  rewrite <- (lookup_order_required name Hname) in Hfield.
  destruct (first_missing_exists _ _ _ Hfield Hmiss) as (key & Hkey & Hin & Hnone).
  exists key. split; [done |]. split; [by rewrite <- (lookup_order_required name Hname) |].
  split; [done |].
  unfold handle_call_tool, try_except. rewrite (body_missing_key _ _ _ _ Hname Hargs Hkey).
  cbn [exn_str]. by rewrite (repr_lookup_key name key Hname Hin).
Qed.

(** C10.  An error answer of [append-insight] does not mean the ledger is
    as it was.  When the request to send the notification raises, the call
    answers [Error: ] followed by the text of that exception and the insight
    stays appended; the ledger is unchanged exactly when the payload is absent
    or lacks the key [insight]. *)
Theorem append_insight_not_rolled_back (arguments : option (gmap string value)) (w : W) :
  (∀ args insight e, arguments = Some args → args !! "insight" = Some insight →
     fst (send_resource_updated memo_insights (session w)) = inl e →
     fst (handle_call_tool "append-insight" arguments w) =
       [TextContent ("Error: " +:+ exn_str e)]
     ∧ insights (snd (handle_call_tool "append-insight" arguments w)) =
         insights w ++ [insight])
  ∧ (insights (snd (handle_call_tool "append-insight" arguments w)) = insights w
     ↔ lacks_insight arguments).
Proof.
  split.
  - intros args insight e -> Hin Hsend. rewrite (append_insight_run _ _ _ Hin).
    cbn [fst snd insights]. by rewrite Hsend.
  - split.
    + intros Hsame. destruct arguments as [args|]; [| done].
      cbn. destruct (args !! "insight") as [insight|] eqn:Hin; [| done].
      rewrite (append_insight_run _ _ _ Hin) in Hsame. cbn [snd insights] in Hsame.
      apply (f_equal length) in Hsame. rewrite length_app in Hsame. cbn in Hsame. lia.
    + intros Hl. by rewrite append_insight_invalid.
Qed.

End Router.

(** ** The router and the cancellation of the task *)

Section Cancellation.
Context {S T : Type} {store : Store S} {transport : Transport T} {awaitable : Awaitable T}
        {builtins : PyBuiltins}.

Local Abbreviation W := (World S T).

Lemma bind_run_x {A B} (m : MX W A) (f : A → MX W B) (w : W) :
  (m ≫= f) w =
  match m w with
  | (inr (inr x), w') => f x w'
  | (inr (inl e), w') => (inr (inl e), w')
  | (inl b, w') => (inl b, w')
  end.
Proof. reflexivity. Qed.

(** A branch without [await] behaves as in [handle_call_tool]. *)
Lemma call_tool_async_lift (name : string) (arguments : option (gmap string value)) (w : W) :
  handle_call_tool_body_async name arguments = lift (handle_call_tool_body name arguments) →
  handle_call_tool_body_async name arguments w
    = (inr (fst (handle_call_tool_body name arguments w)),
       snd (handle_call_tool_body name arguments w))
  ∧ handle_call_tool_async name arguments w
    = (inr (fst (handle_call_tool name arguments w)), snd (handle_call_tool name arguments w)).
Proof.
  intros Hlift. unfold handle_call_tool_async, try_except_Exception.
  rewrite Hlift. unfold lift, handle_call_tool, try_except.
  by destruct (handle_call_tool_body name arguments w) as [[e|r] w'].
Qed.

Lemma body_async_other (name : string) (arguments : option (gmap string value)) :
  name ≠ "append-insight" →
  handle_call_tool_body_async name arguments = lift (handle_call_tool_body name arguments).
Proof.
  intros Hn%String.eqb_neq. unfold handle_call_tool_body_async. rewrite Hn.
  by destruct (String.eqb name "list-collections").
Qed.

Lemma body_async_invalid (arguments : option (gmap string value)) :
  lacks_insight arguments →
  handle_call_tool_body_async "append-insight" arguments
    = lift (handle_call_tool_body "append-insight" arguments).
Proof.
  intros Hl. rewrite body_append_insight. unfold handle_call_tool_body_async.
  cbn [String.eqb Ascii.eqb Bool.eqb].
  destruct arguments as [args|]; [| reflexivity].
  cbn in Hl. apply not_in_None in Hl. by rewrite Hl, orb_true_r.
Qed.

(** What [append-insight] does once the key is there, for each outcome of
    the [await]. *)
Lemma append_insight_async_run (args : gmap string value) (insight : value) (w : W) :
  args !! "insight" = Some insight →
  handle_call_tool_body_async "append-insight" (Some args) w =
  (match fst (await_send_resource_updated memo_insights (session w)) with
   | inr (inr _) => inr (inr [TextContent "Insight added to memo"])
   | inr (inl e) => inr (inl e)
   | inl b => inl b
   end,
   {| db := db w;
      insights := insights w ++ [insight];
      session := snd (await_send_resource_updated memo_insights (session w));
      journal := journal w ++ [Appended insight;
                               Synthesized (_synthesize_memo (insights w ++ [insight]));
                               Notify memo_insights] |}).
Proof.
  intros Hin. unfold handle_call_tool_body_async. cbn [String.eqb Ascii.eqb Bool.eqb].
  assert (Hne : not_ (Some args) = false).
  { apply not__Some. intros ->. by rewrite lookup_empty in Hin. }
  assert (Hk : not_in "insight" args = false).
  { unfold not_in. by rewrite Hin. }
  rewrite Hne, Hk. cbn [orb].
  rewrite !bind_run_x. unfold lift, of_result, getitem. rewrite Hin.
  unfold insights_append. rewrite !bind_run_x.
  unfold synthesize_memo_call. rewrite !bind_run_x.
  unfold await_session_send_resource_updated.
  cbn [session set_session set_insights log db insights journal].
  destruct (await_send_resource_updated memo_insights (session w)) as [[b|[e|[]]] t'];
    cbn [fst snd]; unfold log, set_session, set_insights, mret, MX_ret;
    cbn [db insights session journal]; rewrite <- !app_assoc; reflexivity.
Qed.

(** C2.  A tool call converts every instance of [Exception] raised in the
    body of its [try] into the single textual item [Error: ] followed by
    [str(e)], and a body that returns returns a single textual item; so a
    call that returns returns exactly one textual item.  An exception that is
    not an [Exception] is not caught and escapes: that is the exception the
    [await] of [append-insight] raised, the call was given the key [insight],
    and the insight stays appended.  When the [await] raises no such
    exception the call returns, and when it is the plain send of the session
    the outcome is the one of [handle_call_tool]. *)
Theorem call_tool_catches_exceptions (name : string)
    (arguments : option (gmap string value)) (w : W) :
  (∀ e, fst (handle_call_tool_body_async name arguments w) = inr (inl e) →
     fst (handle_call_tool_async name arguments w)
       = inr [TextContent ("Error: " +:+ exn_str e)])
  ∧ (∀ items, fst (handle_call_tool_body_async name arguments w) = inr (inr items) →
       fst (handle_call_tool_async name arguments w) = inr items
       ∧ ∃ text, items = [TextContent text])
  ∧ (∀ items, fst (handle_call_tool_async name arguments w) = inr items →
       ∃ text, items = [TextContent text])
  ∧ (∀ b, fst (handle_call_tool_async name arguments w) = inl b ↔
          fst (handle_call_tool_body_async name arguments w) = inl b)
  ∧ (∀ b, fst (handle_call_tool_async name arguments w) = inl b →
       name = "append-insight"
       ∧ fst (await_send_resource_updated memo_insights (session w)) = inl b
       ∧ ∃ args insight,
           arguments = Some args ∧ args !! "insight" = Some insight
           ∧ insights (snd (handle_call_tool_async name arguments w))
             = insights w ++ [insight])
  ∧ ((∀ b, fst (await_send_resource_updated memo_insights (session w)) ≠ inl b) →
       ∃ text, fst (handle_call_tool_async name arguments w) = inr [TextContent text])
  ∧ (await_send_resource_updated memo_insights (session w)
       = (inr (fst (send_resource_updated memo_insights (session w))),
          snd (send_resource_updated memo_insights (session w))) →
     handle_call_tool_async name arguments w
       = (inr (fst (handle_call_tool name arguments w)),
          snd (handle_call_tool name arguments w))).
Proof.
  assert (Hbody : ∀ items, fst (handle_call_tool_body_async name arguments w) = inr (inr items) →
                    ∃ text, items = [TextContent text]).
  { intros items Hitems.
    destruct (decide (name = "append-insight")) as [-> | Hname].
    - destruct arguments as [args|];
        [destruct (args !! "insight") as [insight|] eqn:Hin |].
      + rewrite (append_insight_async_run _ _ _ Hin) in Hitems. cbn [fst] in Hitems.
        destruct (fst (await_send_resource_updated memo_insights (session w)))
          as [b|[e|[]]]; try discriminate Hitems.
        injection Hitems as <-. eauto.
      + destruct (call_tool_async_lift _ _ w (body_async_invalid (Some args) Hin)) as [Hb _].
        rewrite Hb in Hitems.
        destruct (handle_call_tool_body "append-insight" (Some args) w) as [[e|r] w'] eqn:Hold;
          cbn [fst] in Hitems; [discriminate Hitems |].
        injection Hitems as ->. by eapply handle_call_tool_body_text.
      + destruct (call_tool_async_lift _ _ w (body_async_invalid None I)) as [Hb _].
        rewrite Hb in Hitems.
        destruct (handle_call_tool_body "append-insight" None w) as [[e|r] w'] eqn:Hold;
          cbn [fst] in Hitems; [discriminate Hitems |].
        injection Hitems as ->. by eapply handle_call_tool_body_text.
    - destruct (call_tool_async_lift _ _ w (body_async_other _ arguments Hname)) as [Hb _].
      rewrite Hb in Hitems.
      destruct (handle_call_tool_body name arguments w) as [[e|r] w'] eqn:Hold;
        cbn [fst] in Hitems; [discriminate Hitems |].
      injection Hitems as ->. by eapply handle_call_tool_body_text. }
  assert (Hescape : ∀ b, fst (handle_call_tool_async name arguments w) = inl b ↔
                         fst (handle_call_tool_body_async name arguments w) = inl b).
  { intros b. unfold handle_call_tool_async, try_except_Exception.
    destruct (handle_call_tool_body_async name arguments w) as [[b'|[e|r]] w'];
      cbn [fst]; split; congruence. }
  assert (Hwhere : ∀ b, fst (handle_call_tool_async name arguments w) = inl b →
             name = "append-insight"
             ∧ fst (await_send_resource_updated memo_insights (session w)) = inl b
             ∧ ∃ args insight,
                 arguments = Some args ∧ args !! "insight" = Some insight
                 ∧ insights (snd (handle_call_tool_async name arguments w))
                   = insights w ++ [insight]).
  { intros b Hb.
    destruct (decide (name = "append-insight")) as [-> | Hname].
    - destruct arguments as [args|];
        [destruct (args !! "insight") as [insight|] eqn:Hin |].
      + unfold handle_call_tool_async, try_except_Exception in Hb |- *.
        rewrite (append_insight_async_run _ _ _ Hin) in Hb |- *.
        destruct (fst (await_send_resource_updated memo_insights (session w)))
          as [b'|[e|[]]]; cbn [fst] in Hb; try discriminate Hb.
        injection Hb as ->. repeat split. by exists args, insight.
      + destruct (call_tool_async_lift _ _ w (body_async_invalid (Some args) Hin)) as [_ Hc].
        rewrite Hc in Hb. discriminate Hb.
      + destruct (call_tool_async_lift _ _ w (body_async_invalid None I)) as [_ Hc].
        rewrite Hc in Hb. discriminate Hb.
    - destruct (call_tool_async_lift _ _ w (body_async_other _ arguments Hname)) as [_ Hc].
      rewrite Hc in Hb. discriminate Hb. }
  assert (Hreturns : ∀ items, fst (handle_call_tool_async name arguments w) = inr items →
                       ∃ text, items = [TextContent text]).
  { intros items. unfold handle_call_tool_async, try_except_Exception.
    destruct (handle_call_tool_body_async name arguments w) as [[b|[e|r]] w'] eqn:Hrun;
      cbn [fst]; intros [= <-]; [eauto |].
    apply Hbody. reflexivity. }
  split; [| split; [| split; [| split; [| split; [| split]]]]].
  - intros e. unfold handle_call_tool_async, try_except_Exception.
    destruct (handle_call_tool_body_async name arguments w) as [[b|[e'|r]] w'];
      cbn [fst]; by intros [= ->].
  - intros items Hitems. split; [| by apply Hbody].
    unfold handle_call_tool_async, try_except_Exception.
    destruct (handle_call_tool_body_async name arguments w) as [[b|[e'|r]] w'];
      cbn [fst] in *; congruence.
  - exact Hreturns.
  - exact Hescape.
  - exact Hwhere.
  - intros Hnone.
    destruct (fst (handle_call_tool_async name arguments w)) as [b|items] eqn:Hout.
    + destruct (Hwhere b eq_refl) as (_ & Hb & _). by destruct (Hnone b).
    + destruct (Hreturns items eq_refl) as [text ->]. eauto.
  - intros Hplain.
    destruct (decide (name = "append-insight")) as [-> | Hname];
      [| by apply call_tool_async_lift, body_async_other].
    destruct arguments as [args|];
      [destruct (args !! "insight") as [insight|] eqn:Hin |];
      [| by apply call_tool_async_lift, body_async_invalid ..].
    unfold handle_call_tool_async, try_except_Exception.
    rewrite (append_insight_async_run _ _ _ Hin), (append_insight_run _ _ _ Hin), Hplain.
    cbn [fst snd].
    by destruct (fst (send_resource_updated memo_insights (session w))) as [e|[]].
Qed.

End Cancellation.

(** ** Runs on the reference collaborators *)

Import Reference.

Lemma sales_insight : sales !! "insight" = Some (VStr "Sales spike in Q4").
Proof. vm_compute. reflexivity. Qed.

Lemma synthesize_memo_layout_witness :
  split_lines (_synthesize_memo [VStr "Sales spike in Q4"])
  = ["📊 Business Intelligence Memo 📊"; ""; "Key Insights Discovered:"; "";
     "- Sales spike in Q4"]
  ∧ split_lines (_synthesize_memo [VStr "Sales spike in Q4"; VStr "Returns fell"])
    = ["📊 Business Intelligence Memo 📊"; ""; "Key Insights Discovered:"; "";
       "- Sales spike in Q4"; "- Returns fell"; "Summary:";
       "Analysis has revealed 2 key business insights that suggest opportunities for strategic optimization and growth."].
Proof.
  split.
  - destruct (synthesize_memo_layout [VStr "Sales spike in Q4"]) as (_ & Hlines & _).
    destruct Hlines as (_ & _ & Hsplit); [discriminate |].
    rewrite Hsplit; [reflexivity | repeat constructor].
  - destruct (synthesize_memo_layout [VStr "Sales spike in Q4"; VStr "Returns fell"])
      as (_ & Hlines & _).
    destruct Hlines as (_ & _ & Hsplit); [discriminate |].
    rewrite Hsplit; [reflexivity | repeat constructor].
Defined.

Lemma append_insight_steps_witness :
  fst (handle_call_tool "append-insight" (Some sales) start) = [TextContent "Insight added to memo"]
  ∧ insights (snd (handle_call_tool "append-insight" (Some sales) start))
    = [VStr "Sales spike in Q4"].
Proof.
  destruct (append_insight_steps (Some sales) start) as [_ Hsteps].
  destruct (Hsteps sales (VStr "Sales spike in Q4") eq_refl sales_insight)
    as (Hledger & _ & _ & _ & Hanswer).
  split; [apply Hanswer; reflexivity | exact Hledger].
Defined.

Lemma read_resource_fresh_or_fault_witness :
  handle_read_resource {| scheme := "memo"; url_text := "memo://insights/" |} start
  = inl (ValueError "Unknown resource path: insights/")
  ∧ handle_read_resource {| scheme := "https"; url_text := "https://insights" |} start
    = inl (ValueError "Unsupported URI scheme: https")
  ∧ handle_read_resource memo_insights
      (snd (handle_call_tool "append-insight" (Some sales) start))
    = inr (String.concat LF
             ["📊 Business Intelligence Memo 📊"; ""; "Key Insights Discovered:"; "";
              "- Sales spike in Q4"]).
Proof.
  split; [| split].
  - destruct (read_resource_fresh_or_fault
                {| scheme := "memo"; url_text := "memo://insights/" |} start)
      as (_ & _ & _ & Hpath & _).
    apply Hpath; [reflexivity | vm_compute; discriminate].
  - destruct (read_resource_fresh_or_fault
                {| scheme := "https"; url_text := "https://insights" |} start)
      as (_ & _ & Hscheme & _).
    apply Hscheme. vm_compute. discriminate.
  - destruct (read_resource_fresh_or_fault memo_insights start) as (_ & _ & _ & _ & Hread).
    destruct (Hread sales (VStr "Sales spike in Q4") sales_insight) as [Hmemo _].
    exact Hmemo.
Defined.

Lemma confirm_not_empty : confirm ≠ ∅.
Proof. intros Heq. apply (f_equal (lookup "confirm")) in Heq. vm_compute in Heq. discriminate. Qed.

Lemma unknown_tool_error_witness :
  handle_call_tool "drop-database" (Some confirm) start
  = ([TextContent "Error: Unknown tool: drop-database"], start).
Proof.
  apply (unknown_tool_error "drop-database" confirm start).
  - intros Hin. vm_compute in Hin.
    repeat (apply elem_of_cons in Hin as [Hin | Hin]; [discriminate |]).
    by apply elem_of_nil in Hin.
  - exact confirm_not_empty.
Defined.

Lemma missing_arguments_error_witness :
  handle_call_tool "find" None shop = ([TextContent "Error: Missing arguments"], shop)
  ∧ handle_call_tool "append-insight" None shop
    = ([TextContent "Error: Missing insight argument"], shop)
  ∧ handle_call_tool "list-collections" None shop
    = ([TextContent "['inventory', 'orders']"], shop).
Proof.
  split; [| split].
  - destruct (missing_arguments_error "find" None shop (or_introl eq_refl)) as (Hother & _).
    apply Hother; discriminate.
  - destruct (missing_arguments_error "append-insight" None shop (or_introl eq_refl))
      as (_ & Hinsight & _).
    by apply Hinsight.
  - destruct (missing_arguments_error "list-collections" None shop (or_introl eq_refl))
      as (_ & _ & Hlist).
    apply (Hlist eq_refl ["inventory"; "orders"] (db shop)). reflexivity.
Defined.

Lemma insert_ids_as_strings_witness :
  fst (_execute_query (VList [order; order]) "insert" (VStr "orders") shop)
  = inr [VDict [("inserted_ids", VList [VStr "000000000000000000000000";
                                        VStr "000000000000000000000001"])]]
  ∧ fst (_execute_query (widget 4) "insert" (VStr "inventory") shop)
    = inr [VDict [("inserted_id", VStr "4")]].
Proof.
  split.
  - destruct (insert_ids_as_strings (store := mem_store) (VList [order; order]) (VStr "orders") "orders" shop eq_refl)
      as [Hmany _].
    edestruct (Hmany [order; order]) as [Hrun _]; [reflexivity | vm_compute; reflexivity |].
    rewrite Hrun. reflexivity.
  - destruct (insert_ids_as_strings (store := mem_store) (widget 4) (VStr "inventory") "inventory" shop eq_refl)
      as [_ Hone].
    edestruct Hone as [Hrun _]; [reflexivity | vm_compute; reflexivity |].
    rewrite Hrun. reflexivity.
Defined.

Lemma update_delete_many_witness :
  _execute_query (VDict [("filter", widgets); ("update", restock)]) "update"
                 (VStr "inventory") shop
  = (inr [VDict [("modified_count", VInt 2)]], set_db restocked shop)
  ∧ _execute_query widgets "delete" (VStr "inventory") shop
    = (inr [VDict [("deleted_count", VInt 2)]], set_db cleared shop).
Proof.
  split.
  - destruct (update_delete_many (store := mem_store)
                (VDict [("filter", widgets); ("update", restock)])
                (VStr "inventory") "inventory" shop eq_refl) as (Hupdate & _ & _ & _).
    exact (Hupdate widgets restock {| matched_count := 2; modified_count := 2 |} restocked
             eq_refl eq_refl eq_refl).
  - destruct (update_delete_many (store := mem_store) widgets
                (VStr "inventory") "inventory" shop eq_refl) as (_ & Hdelete & _ & _).
    exact (Hdelete {| deleted_count := 2 |} cleared eq_refl).
Defined.

Lemma only_collection_not_empty : only_collection ≠ ∅.
Proof.
  intros Heq. apply (f_equal (lookup "collection")) in Heq. vm_compute in Heq. discriminate.
Qed.

Lemma missing_field_key_error_witness :
  handle_call_tool "find" (Some only_collection) shop = ([TextContent "Error: 'query'"], shop).
Proof.
  destruct (missing_field_key_error "find" only_collection "query" shop)
    as (key & Hfirst & _ & _ & Hanswer).
  - repeat constructor.
  - exact only_collection_not_empty.
  - vm_compute. repeat constructor.
  - vm_compute. reflexivity.
  - vm_compute in Hfirst. injection Hfirst as <-. exact Hanswer.
Defined.

Lemma append_insight_not_rolled_back_witness :
  fst (handle_call_tool "append-insight" (Some sales) (hang_up start))
  = [TextContent "Error: Connection closed"]
  ∧ insights (snd (handle_call_tool "append-insight" (Some sales) (hang_up start)))
    = [VStr "Sales spike in Q4"].
Proof.
  destruct (append_insight_not_rolled_back (Some sales) (hang_up start)) as [Hkept _].
  apply (Hkept sales (VStr "Sales spike in Q4") (External "Connection closed") eq_refl sales_insight).
  reflexivity.
Defined.

(** On the reference store the single-document operations differ from the
    ones the gateway calls: they stop at the first widget. *)
Example reference_update_one :
  fst (coll_update_one (Store := mem_store) "inventory" widgets restock (db shop))
  = inr {| matched_count := 1; modified_count := 1 |}
  ∧ fst (coll_delete_one (Store := mem_store) "inventory" widgets (db shop))
    = inr {| deleted_count := 1 |}.
Proof. split; reflexivity. Qed.

(** An insert followed by a find shows the document with its generated
    identifier as text. *)
Example insert_then_find :
  let w := snd (handle_call_tool "insert"
                  (Some {["collection" := VStr "orders"; "documents" := VList [order]]})
                  start) in
  fst (handle_call_tool "find"
         (Some {["collection" := VStr "orders"; "query" := VDict []]}) w)
  = [TextContent
       "[{'_id': {'$oid': '000000000000000000000000'}, 'orderId': '1', 'total': 10}]"].
Proof. vm_compute. reflexivity. Qed.

(** * More of the server *)

Section Rest.
Context {S T : Type} {store : Store S} {transport : Transport T} {builtins : PyBuiltins}.

Local Abbreviation W := (World S T).

(** ** The gateway, operation by operation *)

Lemma gateway_request_not_empty (name : string) (args : gmap string value)
    (request : value * string * value) :
  gateway_request name args = Some request → args ≠ ∅.
Proof.
  intros Hreq ->. unfold gateway_request in Hreq.
  repeat case_match; by rewrite ?lookup_empty in Hreq.
Qed.

(** A gateway tool whose lookups succeed answers with what the gateway
    returned or raised for its request. *)
Lemma call_gateway_tool (name : string) (args : gmap string value)
    (query : value) (operation : string) (collection_name : value) (w : W) :
  gateway_request name args = Some (query, operation, collection_name) →
  handle_call_tool name (Some args) w =
    answer_of (_execute_query query operation collection_name w).
Proof.
  intros Hreq. pose proof (gateway_request_not_empty _ _ _ Hreq) as Hne%not__Some.
  unfold gateway_request in Hreq.
  unfold handle_call_tool, try_except, handle_call_tool_body, answer_of. rewrite Hne.
  destruct (String.eqb name "list-collections") eqn:Hl.
  { apply String.eqb_eq in Hl as ->. discriminate Hreq. }
  destruct (String.eqb name "append-insight") eqn:Ha.
  { apply String.eqb_eq in Ha as ->. discriminate Hreq. }
  destruct (String.eqb name "find") eqn:?; [|
  destruct (String.eqb name "aggregate") eqn:?; [|
  destruct (String.eqb name "insert") eqn:?; [|
  destruct (String.eqb name "update") eqn:?; [|
  destruct (String.eqb name "delete") eqn:?; [|
  destruct (String.eqb name "create-collection") eqn:?; [| discriminate Hreq ]]]]]].
  all: rewrite !bind_run; unfold of_result, getitem;
    repeat match type of Hreq with
      | context [?m !! ?k] =>
          destruct (m !! k) eqn:?; cbn [mbind option_bind] in Hreq; try discriminate Hreq
      end;
    injection Hreq as <- <- <-; rewrite ?bind_run;
    by destruct (_execute_query _ _ _ w) as [[?|?] ?].
Qed.

Lemma same_ledger_refl (w : W) : same_ledger w w.
Proof. by repeat split. Qed.

Lemma same_ledger_trans (w1 w2 w3 : W) :
  same_ledger w1 w2 → same_ledger w2 w3 → same_ledger w1 w3.
Proof. intros (? & ? & ?) (? & ? & ?). repeat split; congruence. Qed.

Lemma same_ledger_set_db (s : S) (w : W) : same_ledger w (set_db s w).
Proof. by repeat split. Qed.

Lemma keeps_ledger_ret {A} (x : A) : keeps_ledger (S := S) (T := T) (mret x).
Proof. intros w. apply same_ledger_refl. Qed.

Lemma keeps_ledger_raise {A} (e : exn) : keeps_ledger (S := S) (T := T) (A := A) (raise e).
Proof. intros w. apply same_ledger_refl. Qed.

Lemma keeps_ledger_of_result {A} (r : exn + A) : keeps_ledger (S := S) (T := T) (of_result r).
Proof. intros w. apply same_ledger_refl. Qed.

Lemma keeps_ledger_store_call {A} (op : S → (exn + A) * S) :
  keeps_ledger (T := T) (store_call op).
Proof.
  intros w. unfold store_call. destruct (op (db w)) as [r s'].
  apply same_ledger_set_db.
Qed.

Lemma keeps_ledger_bind {A B} (m : M W A) (f : A → M W B) :
  keeps_ledger m → (∀ x, keeps_ledger (f x)) → keeps_ledger (m ≫= f).
Proof.
  intros Hm Hf w. rewrite bind_run. specialize (Hm w).
  destruct (m w) as [[e|x] w1]; cbn [snd] in *; [done |].
  eapply same_ledger_trans; [exact Hm | apply Hf].
Qed.

Lemma keeps_ledger_reraise {A} (m : M W A) : keeps_ledger m → keeps_ledger (try_reraise m).
Proof.
  intros Hm w. specialize (Hm w). unfold try_reraise.
  by destruct (m w) as [[e|x] w1].
Qed.

Lemma keeps_ledger_getitem (collection_name : value) :
  keeps_ledger (S := S) (T := T) (fun w => (db_getitem (db w) collection_name, w)).
Proof. intros w. apply same_ledger_refl. Qed.

Ltac keeps_ledger_steps :=
  repeat first
    [ apply keeps_ledger_ret
    | apply keeps_ledger_raise
    | apply keeps_ledger_of_result
    | apply keeps_ledger_store_call
    | apply keeps_ledger_getitem
    | apply keeps_ledger_reraise
    | apply keeps_ledger_bind; [| intros ?]
    | case_match ].

Lemma execute_query_keeps_ledger (query : value) (operation : string) (collection_name : value) :
  keeps_ledger (T := T) (_execute_query query operation collection_name).
Proof. unfold _execute_query. keeps_ledger_steps. Qed.

(** X3.  The gateway works on the store alone: whatever the operation, the
    query and the outcome, it leaves the ledger, the session and the journal
    as they were. *)
Theorem execute_query_frame (query : value) (operation : string) (collection_name : value)
    (w : W) :
  insights (snd (_execute_query query operation collection_name w)) = insights w
  ∧ session (snd (_execute_query query operation collection_name w)) = session w
  ∧ journal (snd (_execute_query query operation collection_name w)) = journal w.
Proof. apply execute_query_keeps_ledger. Qed.

Lemma execute_query_getitem_fails (query : value) (operation : string)
    (collection_name : value) (e : exn) (w : W) :
  db_getitem (db w) collection_name = inl e →
  _execute_query query operation collection_name w = (inl e, w).
Proof.
  intros Hc. unfold _execute_query, try_reraise. by rewrite bind_run, Hc.
Qed.

Lemma operation_not_known (operation : string) :
  operation ∉ gateway_operations →
  ∀ known, known ∈ gateway_operations → String.eqb operation known = false.
Proof. intros Hop known Hin. apply String.eqb_neq. intros ->. contradiction. Qed.

(** X1.  An operation that is none of [find], [aggregate], [insert],
    [update], [delete] and [create_collection] makes the gateway raise
    [ValueError] with the text [Unsupported operation: ] and the operation,
    once the collection has been looked up; no call reaches the store and the
    world is unchanged. *)
Theorem execute_query_unsupported (query : value) (operation : string)
    (collection_name : value) (coll : Collection) (w : W) :
  operation ∉ gateway_operations →
  db_getitem (db w) collection_name = inr coll →
  _execute_query query operation collection_name w =
    (inl (ValueError ("Unsupported operation: " +:+ operation)), w).
Proof.
  intros Hop Hc. pose proof (operation_not_known operation Hop) as Hneq.
  unfold _execute_query, try_reraise. rewrite bind_run, Hc.
  rewrite !Hneq by (unfold gateway_operations; repeat constructor).
  reflexivity.
Qed.

(** X2.  The gateway looks the collection up before anything else: when
    [self.db[collection_name]] raises, that exception is what the gateway
    raises, whatever the operation (a supported one or not) and the query,
    and the world is unchanged; and every gateway tool called for that
    collection answers [Error: ] followed by the text of that exception. *)
Theorem execute_query_collection_first (query : value) (operation : string)
    (collection_name : value) (e : exn) (w : W) :
  db_getitem (db w) collection_name = inl e →
  _execute_query query operation collection_name w = (inl e, w)
  ∧ ∀ name args,
      gateway_request name args = Some (query, operation, collection_name) →
      handle_call_tool name (Some args) w = ([TextContent ("Error: " +:+ exn_str e)], w).
Proof.
  intros Hc. split; [by apply execute_query_getitem_fails |].
  intros name args Hreq. rewrite (call_gateway_tool _ _ _ _ _ w Hreq).
  by rewrite (execute_query_getitem_fails _ _ _ e w Hc).
Qed.

Lemma dict_get_absent (kvs : list (string * value)) (key : string) (default : value) :
  key ∉ map fst kvs → dict_get (VDict kvs) key default = inr default.
Proof.
  intros Hkey. unfold dict_get.
  induction kvs as [|[k v] kvs IH]; [reflexivity |].
  cbn [find fst]. apply not_elem_of_cons in Hkey as [Hk Hkvs].
  assert (String.eqb k key = false) as -> by (apply String.eqb_neq; intros <-; by apply Hk).
  by apply IH.
Qed.

Lemma dict_get_dict (kvs : list (string * value)) (key : string) (default : value) :
  ∃ v, dict_get (VDict kvs) key default = inr v ∧ (key ∉ map fst kvs → v = default).
Proof.
  destruct (decide (key ∈ map fst kvs)) as [Hin | Hout].
  - unfold dict_get. destruct (find _ kvs) as [kv|]; eexists; (split; [reflexivity | done]).
  - exists default. split; [by apply dict_get_absent | done].
Qed.

(** X5.  [update] and [aggregate] read their query with [query.get].  A
    query that is not a dict makes the gateway raise [AttributeError] before
    any call to the store.  For a dict, [update] runs [update_many] with the
    values of [filter] and [update], each replaced by the empty dict when its
    key is missing (so a missing filter selects every document), and
    [aggregate] runs the value of [pipeline], or the empty pipeline; the
    gateway returns the count, or the documents after the JSON round trip,
    when the store returns, and raises what the store raises. *)
Theorem execute_query_get (query collection_name : value) (coll : Collection) (w : W) :
  db_getitem (db w) collection_name = inr coll →
  (is_dict query = false →
     ∀ operation, operation = "update" ∨ operation = "aggregate" →
       _execute_query query operation collection_name w =
         (inl (AttributeError ("'" +:+ type_name query +:+ "' object has no attribute 'get'")),
          w))
  ∧ (∀ kvs, query = VDict kvs →
       ∃ filter update,
         dict_get query "filter" (VDict []) = inr filter
         ∧ dict_get query "update" (VDict []) = inr update
         ∧ ("filter" ∉ map fst kvs → filter = VDict [])
         ∧ ("update" ∉ map fst kvs → update = VDict [])
         ∧ _execute_query query "update" collection_name w =
             match coll_update_many coll filter update (db w) with
             | (inr r, s') =>
                 (inr [VDict [("modified_count", VInt (Z.of_nat (modified_count r)))]],
                  set_db s' w)
             | (inl e, s') => (inl e, set_db s' w)
             end)
  ∧ (∀ kvs, query = VDict kvs →
       ∃ pipeline,
         dict_get query "pipeline" (VList []) = inr pipeline
         ∧ ("pipeline" ∉ map fst kvs → pipeline = VList [])
         ∧ _execute_query query "aggregate" collection_name w =
             match coll_aggregate coll pipeline (db w) with
             | (inr raw, s') => (json_roundtrip raw, set_db s' w)
             | (inl e, s') => (inl e, set_db s' w)
             end).
Proof.
  intros Hc. split; [| split].
  - intros Hq operation [-> | ->];
      unfold _execute_query, try_reraise; rewrite bind_run, Hc;
      cbn [String.eqb Ascii.eqb Bool.eqb]; rewrite bind_run;
      by destruct query.
  - intros kvs ->.
    destruct (dict_get_dict kvs "filter" (VDict [])) as (filter & Hf & Hf0).
    destruct (dict_get_dict kvs "update" (VDict [])) as (update & Hu & Hu0).
    exists filter, update. repeat split; try done.
    unfold _execute_query, try_reraise. rewrite bind_run, Hc.
    cbn [String.eqb Ascii.eqb Bool.eqb]. rewrite bind_run. unfold of_result at 1. rewrite Hf.
    rewrite bind_run. unfold of_result at 1. rewrite Hu.
    rewrite bind_run. unfold store_call.
    by destruct (coll_update_many coll filter update (db w)) as [[e|r] s'].
  - intros kvs ->.
    destruct (dict_get_dict kvs "pipeline" (VList [])) as (pipeline & Hp & Hp0).
    exists pipeline. repeat split; try done.
    unfold _execute_query, try_reraise. rewrite bind_run, Hc.
    cbn [String.eqb Ascii.eqb Bool.eqb]. rewrite bind_run. unfold of_result at 1. rewrite Hp.
    rewrite bind_run. unfold store_call.
    destruct (coll_aggregate coll pipeline (db w)) as [[e|raw] s']; [done |].
    unfold of_result. by destruct (json_roundtrip raw).
Qed.

(** ** The router and the ledger *)

Lemma body_keeps_ledger (name : string) (arguments : option (gmap string value)) :
  name ≠ "append-insight" →
  keeps_ledger (T := T) (handle_call_tool_body name arguments).
Proof.
  intros Hn%String.eqb_neq. unfold handle_call_tool_body. rewrite Hn.
  repeat first
    [ apply execute_query_keeps_ledger
    | apply keeps_ledger_ret
    | apply keeps_ledger_raise
    | apply keeps_ledger_of_result
    | apply keeps_ledger_store_call
    | apply keeps_ledger_bind; [| intros ?]
    | case_match ].
Qed.

Lemma call_tool_keeps_ledger (name : string) (arguments : option (gmap string value)) (w : W) :
  name ≠ "append-insight" → same_ledger w (snd (handle_call_tool name arguments w)).
Proof.
  intros Hn. pose proof (body_keeps_ledger name arguments Hn w) as Hbody.
  unfold handle_call_tool, try_except.
  by destruct (handle_call_tool_body name arguments w) as [[e|r] w'].
Qed.

(** X6.  Only [append-insight] touches the ledger: a call of any other
    name, known or not, with any arguments and whatever the store does,
    leaves the ledger as it was, requests no notification and adds nothing
    to the journal. *)
Theorem call_tool_ledger_frame (name : string) (arguments : option (gmap string value))
    (w : W) :
  name ≠ "append-insight" →
  insights (snd (handle_call_tool name arguments w)) = insights w
  ∧ session (snd (handle_call_tool name arguments w)) = session w
  ∧ journal (snd (handle_call_tool name arguments w)) = journal w.
Proof. apply call_tool_keeps_ledger. Qed.

(** X14.  [append-insight] never touches the store: whatever its
    arguments and whatever the session does, the store after the call is the
    store before. *)
Theorem append_insight_store_frame (arguments : option (gmap string value)) (w : W) :
  db (snd (handle_call_tool "append-insight" arguments w)) = db w.
Proof.
  destruct arguments as [args|]; [| by rewrite append_insight_invalid].
  destruct (args !! "insight") as [insight|] eqn:Hin.
  - by rewrite (append_insight_run _ _ _ Hin).
  - by rewrite append_insight_invalid.
Qed.

(** X7.  The schemas [handle_list_tools] announces are enough for the
    router: when the arguments of a gateway tool hold every key its schema
    requires, no lookup fails, the router asks the gateway for one of the
    operations the gateway knows, and the answer is the text of what the
    gateway returned, or [Error: ] followed by the text of what it raised. *)
Theorem call_tool_schema_sufficient (name : string) (args : gmap string value) (w : W) :
  name ∈ gateway_tools →
  (∀ key, key ∈ required_fields name → is_Some (args !! key)) →
  ∃ query operation collection_name,
    gateway_request name args = Some (query, operation, collection_name)
    ∧ operation ∈ gateway_operations
    ∧ handle_call_tool name (Some args) w =
        answer_of (_execute_query query operation collection_name w).
Proof.
  intros Hname Hkeys.
  assert (Hreq : ∃ query operation collection_name,
             gateway_request name args = Some (query, operation, collection_name)
             ∧ operation ∈ gateway_operations).
  { unfold gateway_tools in Hname.
    repeat (apply elem_of_cons in Hname as [-> | Hname]);
      [ .. | by apply elem_of_nil in Hname ];
      unfold gateway_request; cbn [String.eqb Ascii.eqb Bool.eqb];
      repeat match goal with
        | |- context [args !! ?k] =>
            let Hk := fresh in
            destruct (Hkeys k) as [? Hk]; [vm_compute; repeat constructor |];
            rewrite Hk; cbn [mbind option_bind]
        end;
      do 3 eexists; (split; [reflexivity | unfold gateway_operations; repeat constructor]). }
  destruct Hreq as (query & operation & collection_name & Hreq & Hop).
  exists query, operation, collection_name. repeat split; [done | done |].
  by apply call_gateway_tool.
Qed.

(** ** A sequence of calls *)

Lemma call_ledger (call : Call) (w : W) :
  insights (snd (handle_call_tool (fst call) (snd call) w))
  = insights w ++ option_list (accepted_insight call)
  ∧ journal (snd (handle_call_tool (fst call) (snd call) w))
    = journal w ++ journal_of (insights w) (option_list (accepted_insight call)).
Proof.
  destruct call as [name arguments]. unfold accepted_insight. cbn [fst snd].
  destruct (String.eqb name "append-insight") eqn:Hname.
  - apply String.eqb_eq in Hname as ->.
    destruct arguments as [args|]; cbn [mbind option_bind].
    + destruct (args !! "insight") as [insight|] eqn:Hin.
      * rewrite (append_insight_run _ _ _ Hin).
        cbn [snd insights journal option_list journal_of app]. done.
      * rewrite append_insight_invalid by done. cbn [snd option_list journal_of].
        by rewrite !app_nil_r.
    + rewrite append_insight_invalid by done. cbn [snd option_list journal_of].
      by rewrite !app_nil_r.
  - apply String.eqb_neq in Hname.
    destruct (call_tool_keeps_ledger name arguments w Hname) as (Hi & _ & Hj).
    rewrite Hi, Hj. cbn [option_list journal_of]. by rewrite !app_nil_r.
Qed.

Lemma journal_of_app (ledger first rest : list value) :
  journal_of ledger (first ++ rest)
  = journal_of ledger first ++ journal_of (ledger ++ first) rest.
Proof.
  revert ledger. induction first as [|insight first IH]; intros ledger.
  - cbn [journal_of app]. by rewrite app_nil_r.
  - cbn [journal_of app]. rewrite IH.
    by replace ((ledger ++ [insight]) ++ first) with (ledger ++ insight :: first)
      by (by rewrite <- app_assoc).
Qed.

Lemma accepted_insights_cons (call : Call) (calls : list Call) :
  accepted_insights (call :: calls) = option_list (accepted_insight call) ++ accepted_insights calls.
Proof.
  unfold accepted_insights. cbn [omap list_omap].
  by destruct (accepted_insight call).
Qed.

Lemma serve_ledger_journal (calls : list Call) (w : W) :
  insights (snd (serve calls w)) = insights w ++ accepted_insights calls
  ∧ journal (snd (serve calls w))
    = journal w ++ journal_of (insights w) (accepted_insights calls).
Proof.
  revert w. induction calls as [|call calls IH]; intros w.
  - cbn. by rewrite !app_nil_r.
  - cbn [serve]. destruct (call_ledger call w) as [Hi Hj].
    destruct (handle_call_tool (fst call) (snd call) w) as [answer w1].
    destruct (IH w1) as [Hi' Hj']. destruct (serve calls w1) as [answers w2].
    cbn [snd] in *. rewrite accepted_insights_cons, journal_of_app.
    rewrite Hi', Hj', Hi, Hj. by rewrite <- !app_assoc.
Qed.

(** X8.  After any sequence of tool calls the ledger is the ledger before,
    followed by the insights of the [append-insight] calls that carried the
    key [insight], in the order of the calls: nothing is ever removed,
    reordered or appended twice, whatever the other calls were and whatever
    the store and the session raised. *)
Theorem serve_ledger (calls : list Call) (w : W) :
  insights (snd (serve calls w)) = insights w ++ accepted_insights calls.
Proof. apply serve_ledger_journal. Qed.

(** X9.  Over any sequence of tool calls the journal grows by three steps
    for each accepted insight, in the order of the calls, and by nothing
    else: the insight is appended, the memo of the ledger so far is computed,
    and the notification for [memo://insights] is requested.  So a
    notification is requested once for each change of the ledger, after that
    change, and never for another address. *)
Theorem serve_journal (calls : list Call) (w : W) :
  journal (snd (serve calls w))
  = journal w ++ journal_of (insights w) (accepted_insights calls)
  ∧ ∀ uri, Notify uri ∈ journal_of (insights w) (accepted_insights calls) →
      uri = memo_insights.
Proof.
  split; [apply serve_ledger_journal |].
  generalize (insights w). induction (accepted_insights calls) as [|insight rest IH];
    intros ledger uri Hin; cbn [journal_of] in Hin.
  - by apply elem_of_nil in Hin.
  - rewrite !elem_of_app, !elem_of_cons in Hin.
    destruct Hin as [[Hin | [Hin | [Hin | Hin]]] | Hin];
      [discriminate | discriminate | congruence | by apply elem_of_nil in Hin | by eapply IH].
Qed.

(** X10.  Starting with an empty ledger, after any sequence of tool calls a
    read of [memo://insights] returns the memo of the accepted insights: the
    fixed sentence when there is none, and otherwise (for insights without
    line breaks) the header lines, one bullet line per accepted insight in
    the order of the calls, and the summary lines when there are two or
    more. *)
Theorem serve_then_read (calls : list Call) (w : W) :
  insights w = [] →
  handle_read_resource memo_insights (snd (serve calls w))
    = inr (_synthesize_memo (accepted_insights calls))
  ∧ (accepted_insights calls = [] →
       handle_read_resource memo_insights (snd (serve calls w)) = inr no_insights_sentence)
  ∧ (accepted_insights calls ≠ [] →
       Forall (fun insight => one_line (str insight) = true) (accepted_insights calls) →
       split_lines (_synthesize_memo (accepted_insights calls))
       = header_lines ++ map (fun insight => "- " +:+ str insight) (accepted_insights calls)
                      ++ summary_lines (length (accepted_insights calls))).
Proof.
  intros Hempty.
  assert (Hread : handle_read_resource memo_insights (snd (serve calls w))
                  = inr (_synthesize_memo (accepted_insights calls))).
  { change (handle_read_resource memo_insights ?x)
      with (inr (A := exn) (_synthesize_memo (insights x))).
    rewrite (proj1 (serve_ledger_journal calls w)). by rewrite Hempty. }
  split; [exact Hread |]. split.
  - intros Hnone. by rewrite Hread, Hnone.
  - intros Hsome Hlines. rewrite memo_of_lines by done.
    apply split_lines_concat; [apply memo_lines_not_nil | by apply memo_lines_one_line].
Qed.

(** X13.  Every resource [handle_list_resources] announces can be read: a
    read of its address returns the memo of the ledger and never raises. *)
Theorem listed_resources_readable (resource : Resource) (w : W) :
  resource ∈ handle_list_resources →
  handle_read_resource (resource_uri resource) w = inr (_synthesize_memo (insights w)).
Proof.
  intros Hin. unfold handle_list_resources in Hin.
  apply elem_of_cons in Hin as [-> | Hin]; [reflexivity | by apply elem_of_nil in Hin].
Qed.

End Rest.

(** ** The memo and the address *)

Section MemoText.
Context {builtins : PyBuiltins}.

Lemma memo_not_sentence (insights : list value) :
  insights ≠ [] → _synthesize_memo insights ≠ no_insights_sentence.
Proof.
  intros Hne Heq. rewrite memo_of_lines in Heq by done.
  unfold memo_lines, header_lines in Heq. cbn [app] in Heq.
  rewrite join_cons in Heq by done. rewrite !str_app_cons in Heq.
  discriminate Heq.
Qed.

Lemma summary_lines_length (n : nat) :
  length (summary_lines n) = if (1 <? n)%nat then 2 else 0.
Proof. unfold summary_lines. by destruct (1 <? n)%nat. Qed.

Lemma bullets_inj (l1 l2 : list value) :
  map bullet l1 = map bullet l2 → map str l1 = map str l2.
Proof.
  revert l2. induction l1 as [|x l1 IH]; intros [|y l2]; try done.
  cbn [map]. intros Heq.
  assert (Hxy : bullet x = bullet y) by congruence.
  assert (Hrest : map bullet l1 = map bullet l2) by congruence.
  f_equal; [| by apply IH].
  unfold bullet in Hxy. by apply (inj (String.app "- ")) in Hxy.
Qed.

(** X11.  The memo tells the texts of the ledger: two ledgers whose
    insights have no line break in them and whose memos are equal hold the
    same texts in the same order.  (With line breaks this fails: an insight
    can imitate a bullet and the summary.) *)
Theorem memo_determines_texts (l1 l2 : list value) :
  Forall (fun insight => one_line (str insight) = true) l1 →
  Forall (fun insight => one_line (str insight) = true) l2 →
  _synthesize_memo l1 = _synthesize_memo l2 →
  map str l1 = map str l2.
Proof.
  intros H1 H2 Heq.
  destruct (decide (l1 = [])) as [-> | Hne1]; destruct (decide (l2 = [])) as [-> | Hne2].
  - reflexivity.
  - symmetry in Heq. by apply memo_not_sentence in Heq.
  - by apply memo_not_sentence in Heq.
  - assert (Hsplit : ∀ l, l ≠ [] →
                Forall (fun insight => one_line (str insight) = true) l →
                split_lines (_synthesize_memo l) = memo_lines l).
    { intros l Hne Hl. rewrite memo_of_lines by done.
      apply split_lines_concat; [apply memo_lines_not_nil | by apply memo_lines_one_line]. }
    assert (Hlines : memo_lines l1 = memo_lines l2).
    { rewrite <- (Hsplit l1), <- (Hsplit l2) by done. by rewrite Heq. }
    unfold memo_lines in Hlines. apply app_inv_head in Hlines.
    apply bullets_inj.
    assert (Hlen : length l1 = length l2).
    { apply (f_equal length) in Hlines.
      rewrite !length_app, !length_map, !summary_lines_length in Hlines.
      destruct l1 as [|? [|? ?]]; destruct l2 as [|? [|? ?]]; cbn in Hlines |- *; try done; lia. }
    apply app_inj_1 in Hlines as [Hb _]; [done | by rewrite !length_map].
Qed.

End MemoText.

Lemma replace_from_skip (old new a p : string) :
  replace_from old new (String.length a) (a +:+ p) = replace_from old new 0 p.
Proof.
  induction a as [|c a IH]; [reflexivity |].
  rewrite str_app_cons. exact IH.
Qed.

Lemma prefix_app (a p : string) : String.prefix a (a +:+ p) = true.
Proof.
  induction a as [|c a IH]; [by destruct p |].
  rewrite str_app_cons. cbn [String.prefix].
  destruct (ascii_dec c c); [exact IH | done].
Qed.

Lemma replace_from_absent (old new s : string) :
  occurs old s = false → replace_from old new 0 s = s.
Proof.
  induction s as [|c s IH]; [reflexivity |].
  cbn [occurs replace_from]. intros [Hp Hs]%orb_false_iff.
  rewrite Hp. f_equal. by apply IH.
Qed.

Lemma replace_from_prefix (c : ascii) (old new p : string) :
  replace_from (String c old) new 0 (String c (old +:+ p))
  = new +:+ replace_from (String c old) new 0 p.
Proof.
  assert (Hp : String.prefix (String c old) (String c (old +:+ p)) = true).
  { rewrite <- str_app_cons. apply prefix_app. }
  cbn [replace_from]. rewrite Hp.
  replace (String.length (String c old) - 1) with (String.length old) by (cbn; lia).
  by rewrite replace_from_skip.
Qed.

(** [old +:+ p], with [p] free of [old], loses exactly its first [old]. *)
Lemma str_replace_prefix (old new p : string) :
  old ≠ "" → occurs old p = false → str_replace old new (old +:+ p) = new +:+ p.
Proof.
  intros Hold Hp. destruct old as [|c old]; [done |].
  change (str_replace (String c old) new (String c old +:+ p))
    with (replace_from (String c old) new 0 (String c (old +:+ p))).
  by rewrite replace_from_prefix, replace_from_absent.
Qed.

Section Address.
Context {S T : Type} {store : Store S} {transport : Transport T} {builtins : PyBuiltins}.

(** X12.  For an address of scheme [memo] whose text is [memo://]
    followed by a rest that does not hold [memo://] again, the path the
    handler computes is that rest: the read returns the memo when the rest is
    [insights] and raises [ValueError] with the text
    [Unknown resource path: ] and the rest otherwise, the empty rest
    included. *)
Theorem read_resource_by_rest (uri : AnyUrl) (rest : string) (w : World S T) :
  scheme uri = "memo" →
  url_text uri = "memo://" +:+ rest →
  occurs "memo://" rest = false →
  resource_path uri = rest
  ∧ handle_read_resource uri w =
      if String.eqb rest "insights" then inr (_synthesize_memo (insights w))
      else inl (ValueError ("Unknown resource path: " +:+ rest)).
Proof.
  intros Hs Ht Hrest.
  assert (Hpath : resource_path uri = rest).
  { unfold resource_path. rewrite Ht. by rewrite str_replace_prefix. }
  split; [exact Hpath |].
  unfold handle_read_resource. rewrite Hs, Hpath. cbn [String.eqb negb].
  destruct (String.eqb rest "insights") eqn:Hi.
  - apply String.eqb_eq in Hi as ->. reflexivity.
  - cbn [negb]. by rewrite orb_true_r.
Qed.

End Address.

(** ** More runs on the reference collaborators *)

Import Scenario.

Lemma execute_query_unsupported_witness :
  _execute_query (VDict []) "create-collection" (VStr "orders") shop
  = (inl (ValueError "Unsupported operation: create-collection"), shop).
Proof.
  apply (execute_query_unsupported (store := mem_store) (VDict []) "create-collection"
           (VStr "orders") "orders" shop); [| reflexivity].
  intros Hin. vm_compute in Hin.
  repeat (apply elem_of_cons in Hin as [Hin | Hin]; [discriminate |]).
  by apply elem_of_nil in Hin.
Defined.

Lemma execute_query_collection_first_witness :
  _execute_query widgets "find" (VInt 3) shop
  = (inl (External "name must be an instance of str"), shop)
  ∧ handle_call_tool "find" (Some find_in_3) shop
    = ([TextContent "Error: name must be an instance of str"], shop).
Proof.
  destruct (execute_query_collection_first (store := mem_store) widgets "find" (VInt 3)
              (External "name must be an instance of str") shop eq_refl) as [Hgateway Htool].
  split; [exact Hgateway |]. apply Htool. vm_compute. reflexivity.
Defined.

Lemma execute_query_get_witness :
  _execute_query (VList [widgets]) "update" (VStr "inventory") shop
  = (inl (AttributeError "'list' object has no attribute 'get'"), shop)
  ∧ _execute_query (VDict [("update", restock)]) "update" (VStr "inventory") shop
    = (inr [VDict [("modified_count", VInt 3)]], set_db all_restocked shop)
  ∧ _execute_query (VDict []) "update" (VStr "inventory") shop
    = (inl (External "unsupported update operator"), shop)
  ∧ _execute_query (VDict []) "aggregate" (VStr "inventory") shop
    = (inr [widget 1; gadget; widget 2], shop).
Proof.
  split; [| split; [| split]].
  - destruct (execute_query_get (store := mem_store) (VList [widgets]) (VStr "inventory")
                "inventory" shop eq_refl) as [Hnot_dict _].
    apply (Hnot_dict eq_refl "update"). by left.
  - destruct (execute_query_get (store := mem_store) (VDict [("update", restock)])
                (VStr "inventory") "inventory" shop eq_refl) as (_ & Hupdate & _).
    destruct (Hupdate _ eq_refl) as (filter & update & Hf & Hu & _ & _ & Hrun).
    vm_compute in Hf, Hu. injection Hf as <-. injection Hu as <-. exact Hrun.
  - destruct (execute_query_get (store := mem_store) (VDict [])
                (VStr "inventory") "inventory" shop eq_refl) as (_ & Hupdate & _).
    destruct (Hupdate _ eq_refl) as (filter & update & _ & _ & Hf & Hu & Hrun).
    rewrite Hf, Hu in Hrun; [exact Hrun | by intros ?%elem_of_nil ..].
  - destruct (execute_query_get (store := mem_store) (VDict [])
                (VStr "inventory") "inventory" shop eq_refl) as (_ & _ & Haggregate).
    destruct (Haggregate _ eq_refl) as (pipeline & _ & Hp & Hrun).
    rewrite Hp in Hrun; [exact Hrun | by intros ?%elem_of_nil].
Defined.

Lemma call_tool_ledger_frame_witness :
  insights (snd (handle_call_tool "delete"
                   (Some {["collection" := VStr "inventory"; "filter" := widgets]}) shop))
  = [].
Proof.
  destruct (call_tool_ledger_frame "delete"
              (Some {["collection" := VStr "inventory"; "filter" := widgets]}) shop)
    as [Hledger _]; [discriminate | exact Hledger].
Defined.

Lemma call_tool_schema_sufficient_witness :
  handle_call_tool "find" (Some find_widgets) shop
  = answer_of (_execute_query widgets "find" (VStr "inventory") shop).
Proof.
  destruct (call_tool_schema_sufficient "find" find_widgets shop)
    as (query & operation & collection_name & Hreq & _ & Hanswer).
  - repeat constructor.
  - intros key Hin. vm_compute in Hin.
    repeat (apply elem_of_cons in Hin as [-> | Hin]);
      [vm_compute; eauto .. | by apply elem_of_nil in Hin].
  - vm_compute in Hreq. injection Hreq as <- <- <-. exact Hanswer.
Defined.

Lemma serve_then_read_witness :
  handle_read_resource memo_insights (snd (serve session_calls start))
  = inr (_synthesize_memo [VStr "Sales spike in Q4"; VStr "Returns fell"]).
Proof. exact (proj1 (serve_then_read session_calls start eq_refl)). Defined.

Lemma memo_determines_texts_witness :
  map str [VInt 1; VStr "a"] = map str [VStr "1"; VStr "a"].
Proof.
  apply memo_determines_texts; [repeat constructor | repeat constructor |].
  vm_compute. reflexivity.
Defined.

Lemma read_resource_by_rest_witness :
  resource_path latest = "insights/latest"
  ∧ handle_read_resource latest shop
    = inl (ValueError "Unknown resource path: insights/latest").
Proof.
  apply (read_resource_by_rest latest "insights/latest" shop); reflexivity.
Defined.

Lemma listed_resources_readable_witness :
  handle_read_resource
    (resource_uri {| resource_uri := memo_insights;
                     resource_name := "Business Insights Memo";
                     resource_description := "A living document of discovered business insights";
                     resource_mimeType := "text/plain" |}) shop
  = inr no_insights_sentence.
Proof.
  apply listed_resources_readable.
  repeat constructor.
Defined.

(** The calls of the scenario leave the two insights in the ledger, in
    order, and request two notifications. *)
Example serve_session_calls :
  insights (snd (serve session_calls start))
  = [VStr "Sales spike in Q4"; VStr "Returns fell"]
  ∧ outbox (session (snd (serve session_calls start))) = [memo_insights; memo_insights]
  ∧ fst (serve session_calls start)
    = [[TextContent "Insight added to memo"];
       [TextContent "Error: Missing insight argument"];
       [TextContent "[]"];
       [TextContent "Error: Unknown tool: drop-database"];
       [TextContent "Insight added to memo"];
       [TextContent "[]"]].
Proof. vm_compute. repeat split. Qed.

(** Without the condition on line breaks the memo does not tell the
    texts: one insight of four lines and two insights of one line give the
    same memo. *)
Example memo_collision :
  _synthesize_memo [imitation] = _synthesize_memo [VStr "a"; VStr "b"]
  ∧ map str [imitation] ≠ map str [VStr "a"; VStr "b"].
Proof. split; [vm_compute; reflexivity | discriminate]. Qed.

(** ** Runs of a task that may be cancelled *)

Import Cancelling.

(** The task is cancelled while [append-insight] waits for the session:
    [CancelledError] escapes the handler, no content is returned, and the
    insight is in the ledger. *)
Lemma call_tool_cancelled_escapes :
  fst (handle_call_tool_async "append-insight" (Some sales) cancelled_shop)
  = inl CancelledError
  ∧ ¬ (∃ items,
         fst (handle_call_tool_async "append-insight" (Some sales) cancelled_shop) = inr items)
  ∧ insights (snd (handle_call_tool_async "append-insight" (Some sales) cancelled_shop))
    = [VStr "Sales spike in Q4"].
Proof.
  assert (Hout : fst (handle_call_tool_async "append-insight" (Some sales) cancelled_shop)
                 = inl CancelledError) by (vm_compute; reflexivity).
  split; [exact Hout |]. split.
  - intros [items Hitems]. rewrite Hout in Hitems. discriminate Hitems.
  - vm_compute. reflexivity.
Qed.

Lemma call_tool_catches_exceptions_witness :
  fst (handle_call_tool_async "find" None running_shop)
  = inr [TextContent "Error: Missing arguments"]
  ∧ fst (handle_call_tool_async "find" (Some only_collection) running_shop)
    = inr [TextContent "Error: 'query'"]
  ∧ fst (handle_call_tool_async "create-collection" (Some existing) running_shop)
    = inr [TextContent "Error: collection inventory already exists"]
  ∧ fst (handle_call_tool_async "append-insight" (Some sales) closed_shop)
    = inr [TextContent "Error: Connection closed"]
  ∧ fst (handle_call_tool_async "append-insight" (Some sales) running_shop)
    = inr [TextContent "Insight added to memo"]
  ∧ fst (await_send_resource_updated memo_insights (session cancelled_shop))
    = inl CancelledError.
Proof.
  split; [| split; [| split; [| split; [| split]]]].
  - destruct (call_tool_catches_exceptions "find" None running_shop) as (Hcaught & _).
    apply (Hcaught (ValueError "Missing arguments")). vm_compute. reflexivity.
  - destruct (call_tool_catches_exceptions "find" (Some only_collection) running_shop)
      as (Hcaught & _).
    apply (Hcaught (KeyError "query")). vm_compute. reflexivity.
  - destruct (call_tool_catches_exceptions "create-collection" (Some existing) running_shop)
      as (Hcaught & _).
    apply (Hcaught (External "collection inventory already exists")). vm_compute. reflexivity.
  - destruct (call_tool_catches_exceptions "append-insight" (Some sales) closed_shop)
      as (Hcaught & _).
    apply (Hcaught (External "Connection closed")). vm_compute. reflexivity.
  - destruct (call_tool_catches_exceptions "append-insight" (Some sales) running_shop)
      as (_ & Hreturned & _).
    apply (Hreturned [TextContent "Insight added to memo"]). vm_compute. reflexivity.
  - destruct (call_tool_catches_exceptions "append-insight" (Some sales) cancelled_shop)
      as (_ & _ & _ & _ & Hwhere & _).
    apply (Hwhere CancelledError). vm_compute. reflexivity.
Defined.
